(** * Per-structure aggregation of per-atom descriptors (chemiscope.ipynb)

    A shallow embedding of the two helpers of the notebook,
    [average_over_structures] and [sum_over_structures], together with the
    numpy operations they call.

    Modelling decisions:
    - the entries of the feature array are float64 in the notebook. The
      helpers are embedded twice. In the first embedding the entries are
      exact rationals ([Qc]); it carries the properties about shapes,
      grouping, order, errors and the store, whose proofs use nothing of
      the arithmetic of the entries beyond [0 + x = x] and [x / 1 = x].
      In the second embedding (module [F64]) the entries are IEEE binary64
      numbers; it carries the properties in which rounding matters;
    - numpy arrays are mutable objects, so in the first embedding the
      descriptor's arrays and the output array live in a store ([heap])
      and the helpers run in a state and exception monad over it; the
      temporaries of the loop body (the mask, the selected rows, the
      reduced row) are never written to after their creation and are plain
      values;
    - the numpy functions ([np.unique], [np.zeros], boolean-mask indexing,
      [np.sum], [np.mean], the in-place [+=]) are not code of the notebook:
      they are modelled from numpy's documented behaviour. *)

From Stdlib Require Import QArith Qcanon.
From stdpp Require Import base numbers list sorting strings gmap.
From Stdlib Require Import PrimFloat.
From Stdlib Require Uint63.

Set Warnings "-inexact-float".

(** ** Arrays *)

Abbreviation row := (list Qc) (only parsing).

(** A 2-D array of shape [(length data, shape1)]. The column count is kept
    apart from the rows because an array may have zero rows. *)
Record array2 := Array2 { shape1 : nat; data : list row }.

Definition shape0 (a : array2) : nat := length (data a).

(** Every row has [shape1] entries: the array is rectangular. *)
Definition rectangular (a : array2) : Prop :=
  Forall (λ r : row, length r = shape1 a) (data a).

Inductive ndarray :=
  | IntArray (xs : list Z)
  | FloatArray2 (a : array2).

(** ** Store, exceptions and the monad *)

Abbreviation loc := nat (only parsing).
Abbreviation heap := (list ndarray) (only parsing).

Inductive exn :=
  (* "boolean index did not match indexed array along axis 0; size of axis
     is [axis_size] but size of corresponding boolean index is
     [index_size]" *)
  | IndexError_boolean (axis_size index_size : nat)
  | IndexError_bounds (index size : nat)
  | ValueError_broadcast (expected got : nat)
  | TypeError.

Inductive result (A : Type) :=
  | Ok (a : A)
  | Raise (e : exn).
Arguments Ok {A} a.
Arguments Raise {A} e.

(** A computation returns a value or raises, and in both cases leaves a
    store behind: an exception does not undo earlier writes. *)
Definition M (A : Type) : Type := heap → result A * heap.

Definition ret {A} (a : A) : M A := λ h, (Ok a, h).
Definition raise {A} (e : exn) : M A := λ h, (Raise e, h).
Definition bind {A B} (m : M A) (k : A → M B) : M B :=
  λ h, match m h with
       | (Ok a, h') => k a h'
       | (Raise e, h') => (Raise e, h')
       end.
Definition lift {A} (r : result A) : M A := λ h, (r, h).

Global Instance M_ret : MRet M := @ret.
Global Instance M_bind : MBind M := λ A B k m, bind m k.

Definition load_int (l : loc) : M (list Z) :=
  λ h, match h !! l with
       | Some (IntArray xs) => (Ok xs, h)
       | _ => (Raise TypeError, h)
       end.

Definition load_float2 (l : loc) : M array2 :=
  λ h, match h !! l with
       | Some (FloatArray2 a) => (Ok a, h)
       | _ => (Raise TypeError, h)
       end.

(** Allocation: the new object gets the next free location. *)
Definition alloc (o : ndarray) : M loc := λ h, (Ok (length h), h ++ [o]).

Definition store (l : loc) (o : ndarray) : M unit :=
  λ h, (Ok tt, <[l := o]> h).

(** [for x in xs: body(x)] *)
Fixpoint for_each {A} (xs : list A) (body : A → M unit) : M unit :=
  match xs with
  | [] => ret tt
  | x :: xs' => body x;; for_each xs' body
  end.

(** [enumerate(xs)] *)
Definition enumerate_from {A} (k : nat) (xs : list A) : list (nat * A) :=
  zip (seq k (length xs)) xs.
Definition enumerate {A} (xs : list A) : list (nat * A) := enumerate_from 0 xs.

(** ** numpy *)

(** Drops every element equal to its predecessor. *)
Fixpoint drop_repeats (l : list Z) : list Z :=
  match l with
  | [] => []
  | x :: l' =>
      match l' with
      | [] => [x]
      | y :: _ => if decide (x = y) then drop_repeats l' else x :: drop_repeats l'
      end
  end.

(** [np.unique(ar)]: the sorted unique elements of [ar]. *)
Definition np_unique (ar : list Z) : list Z :=
  drop_repeats (merge_sort Z.le ar).

(** [ar == x], elementwise. *)
Definition eq_scalar (ar : list Z) (x : Z) : list bool :=
  (λ s, bool_decide (s = x)) <$> ar.

(** The elements of [xs] at the positions where [mask] is [true]. *)
Fixpoint select {A} (mask : list bool) (xs : list A) : list A :=
  match mask, xs with
  | b :: mask', x :: xs' =>
      if b then x :: select mask' xs' else select mask' xs'
  | _, _ => []
  end.

(** [a[mask, :]] for a boolean [mask]: a new array with the selected rows;
    numpy raises [IndexError] unless the mask has one entry per row. *)
Definition getitem_mask (a : array2) (mask : list bool) : result array2 :=
  if decide (length mask = shape0 a)
  then Ok (Array2 (shape1 a) (select mask (data a)))
  else Raise (IndexError_boolean (shape0 a) (length mask)).

Definition Qc_sum (xs : list Qc) : Qc := foldr Qcplus 0%Qc xs.

(** Column [j] of a list of rows. *)
Definition column (j : nat) (rs : list row) : list Qc :=
  (λ r : row, nth j r 0%Qc) <$> rs.

(** [np.sum(a, axis=0)]: one entry per column, the sum down the rows. *)
Definition np_sum0 (a : array2) : row :=
  (λ j, Qc_sum (column j (data a))) <$> seq 0 (shape1 a).

(** [np.mean(a, axis=0)]: the column sums divided by the row count. In
    numpy the mean of zero rows is NaN (with a warning); here it is the
    value of [0 / 0] in [Qc]. *)
Definition np_mean0 (a : array2) : row :=
  (λ x, (x / Qc_of_Z (Z.of_nat (shape0 a)))%Qc) <$> np_sum0 a.

(** An [n] by [m] array of zeros. *)
Definition zeros (n m : nat) : array2 :=
  Array2 m (replicate n (replicate m 0%Qc)).

(** [np.zeros((n, m))] *)
Definition np_zeros (n m : nat) : M loc := alloc (FloatArray2 (zeros n m)).

(** [out[i, :] += v], in place. *)
Definition iadd_row (out : loc) (i : nat) (v : row) : M unit :=
  a ← load_float2 out;
  match data a !! i with
  | None => raise (IndexError_bounds i (shape0 a))
  | Some r =>
      if decide (length v = shape1 a)
      then store out (FloatArray2 (Array2 (shape1 a) (<[i := zip_with Qcplus r v]> (data a))))
      else raise (ValueError_broadcast (shape1 a) (length v))
  end.

(** ** The notebook's helpers *)

(** [descriptor.block()]: the locations of its [samples["structure"]]
    column and of its [values] array. *)
Record descriptor := Descriptor { samples_structure : loc; values : loc }.

Definition average_over_structures (descriptor : descriptor) : M loc :=
  let samples := samples_structure descriptor in
  let values := values descriptor in
  all_structures ← (ar ← load_int samples; ret (np_unique ar));
  output ← (v ← load_float2 values; np_zeros (length all_structures) (shape1 v));
  for_each (enumerate all_structures) (λ '(i, structure),
    mask ← (ar ← load_int samples; ret (eq_scalar ar structure));
    group ← (v ← load_float2 values; lift (getitem_mask v mask));
    iadd_row output i (np_mean0 group));;
  ret output.

Definition sum_over_structures (descriptor : descriptor) : M loc :=
  let samples := samples_structure descriptor in
  let values := values descriptor in
  all_structures ← (ar ← load_int samples; ret (np_unique ar));
  output ← (v ← load_float2 values; np_zeros (length all_structures) (shape1 v));
  for_each (enumerate all_structures) (λ '(i, structure),
    mask ← (ar ← load_int samples; ret (eq_scalar ar structure));
    group ← (v ← load_float2 values; lift (getitem_mask v mask));
    iadd_row output i (np_sum0 group));;
  ret output.

(** Calling a helper on a descriptor made of the two given arrays, in a
    store that holds nothing else, and reading the returned array. *)
Definition call (f : descriptor → M loc) (samples : list Z) (vals : array2)
  : result array2 :=
  match f (Descriptor 0 1) [IntArray samples; FloatArray2 vals] with
  | (Ok l, h) =>
      match h !! l with
      | Some (FloatArray2 out) => Ok out
      | _ => Raise TypeError
      end
  | (Raise e, _) => Raise e
  end.

(** ** The common shape of the two helpers

    The helpers differ in the reduction only. [over_structures] is their
    text with the reduction taken as an argument; it is used to prove facts
    about both at once. *)

Definition over_structures (reduce : array2 → row) (descriptor : descriptor)
  : M loc :=
  let samples := samples_structure descriptor in
  let values := values descriptor in
  all_structures ← (ar ← load_int samples; ret (np_unique ar));
  output ← (v ← load_float2 values; np_zeros (length all_structures) (shape1 v));
  for_each (enumerate all_structures) (λ '(i, structure),
    mask ← (ar ← load_int samples; ret (eq_scalar ar structure));
    group ← (v ← load_float2 values; lift (getitem_mask v mask));
    iadd_row output i (reduce group));;
  ret output.

(** The body of the loop of [over_structures], for the iteration
    [(i, structure)]. *)
Definition loop_body (reduce : array2 → row) (samples values output : loc)
  : nat * Z → M unit :=
  λ '(i, structure),
    mask ← (ar ← load_int samples; ret (eq_scalar ar structure));
    group ← (v ← load_float2 values; lift (getitem_mask v mask));
    iadd_row output i (reduce group).

(** The rows of [vals] selected by the mask of structure index [st]. *)
Definition group_of (samples : list Z) (vals : array2) (st : Z) : array2 :=
  Array2 (shape1 vals) (select (eq_scalar samples st) (data vals)).

(** What the helpers compute, as a function of the two arrays. *)
Definition aggregate (reduce : array2 → row) (samples : list Z) (vals : array2)
  : array2 :=
  Array2 (shape1 vals)
    ((λ st, reduce (group_of samples vals st)) <$> np_unique samples).

(** A reduction along axis 0 returns one entry per column. *)
Definition axis0_reduction (reduce : array2 → row) : Prop :=
  ∀ a, length (reduce a) = shape1 a.

(** ** Definitions used to state the properties *)

(** The rows of [vals] that carry structure index [st], read off the
    (index, row) pairs. *)
Definition rows_of (samples : list Z) (vals : array2) (st : Z) : array2 :=
  Array2 (shape1 vals)
    ((filter (λ p : Z * list Qc, p.1 = st) (zip samples (data vals))).*2).

(** The number of rows that carry structure index [st]. *)
Definition count_of (samples : list Z) (st : Z) : nat :=
  length (filter (λ x, x = st) samples).

(** A reduction that returns the row of a one-row array. *)
Definition keeps_single_row (reduce : array2 → list Qc) : Prop :=
  ∀ m (r : list Qc), length r = m → reduce (Array2 m [r]) = r.

Definition example_values : array2 :=
  Array2 2 [[Qc_of_Z 1; Qc_of_Z 1]; [Qc_of_Z 3; Qc_of_Z 3]; [Qc_of_Z 5; Qc_of_Z 5]].

(** A stand-in for the mean that returns a marker row on zero rows. *)
Definition mean_or_marker (a : array2) : list Qc :=
  match data a with
  | [] => [Qc_of_Z 42]
  | _ => np_mean0 a
  end.

Ltac Qc_entries :=
  repeat lazymatch goal with
         | |- @eq Qc _ _ => apply Qc_is_canon; vm_compute; reflexivity
         | |- _ => f_equal
         end.

(** ** The rest of the notebook

    The cells around the two helpers: the energies read off the frames
    (cell 3) and the first row printed in cell 8. *)

(** An [ase.Atoms] object, reduced to its [info] dictionary. *)
Record frame := Frame { info : gmap string Qc }.

(** The outcome of code whose only exception is a missing dictionary
    key. *)
Inductive lookup_result (A : Type) :=
  | Found (a : A)
  | KeyError (key : string).
Arguments Found {A} a.
Arguments KeyError {A} key.

(** [[frame.info[key] for frame in frames]]: the first frame without the
    key raises. *)
Fixpoint info_column (key : string) (frames : list frame)
  : lookup_result (list Qc) :=
  match frames with
  | [] => Found []
  | f :: frames' =>
      match info f !! key with
      | None => KeyError key
      | Some x =>
          match info_column key frames' with
          | Found xs => Found (x :: xs)
          | KeyError k => KeyError k
          end
      end
  end.

(** [np.array(xs).reshape(-1, 1)] *)
Definition reshape_column (xs : list Qc) : array2 :=
  Array2 1 ((λ x, [x]) <$> xs).

(** Cell 3:
    [np.array([frame.info["atomization_energy"] for frame in frames]).reshape(-1, 1)] *)
Definition atomization_energies (frames : list frame) : lookup_result array2 :=
  match info_column "atomization_energy" frames with
  | Found xs => Found (reshape_column xs)
  | KeyError k => KeyError k
  end.

(** [a[i]], a row of a 2-D array, for [0 <= i]. *)
Definition getitem_row (a : array2) (i : nat) : result (list Qc) :=
  match data a !! i with
  | Some r => Ok r
  | None => Raise (IndexError_bounds i (shape0 a))
  end.

(** Cell 8: [per_structure_soap.shape] and [per_structure_soap[0]], the
    two values it prints. Printing itself is not modelled: when the second
    expression raises, the shape has been printed already. *)
Definition cell_print (per_structure_soap : array2)
  : result (nat * nat * list Qc) :=
  match getitem_row per_structure_soap 0 with
  | Ok r => Ok (shape0 per_structure_soap, shape1 per_structure_soap, r)
  | Raise e => Raise e
  end.

(** ** The helpers over float64

    The same two helpers with the entries as IEEE binary64 numbers
    (Rocq's primitive floats), for the properties in which rounding
    matters. The helpers take the two arrays of the descriptor; the
    output array is threaded through the loop, and an exception ends
    the call. A decimal literal stands for the nearest binary64 number,
    as in Python. *)

Module F64.

(** A 2-D float64 array of shape [(length data, shape1)]. *)
Record array2 := Array2 { shape1 : nat; data : list (list float) }.

Definition shape0 (a : array2) : nat := length (data a).

(** [a[mask, :]] for a boolean [mask]. *)
Definition getitem_mask (a : array2) (mask : list bool) : result array2 :=
  if decide (length mask = shape0 a)
  then Ok (Array2 (shape1 a) (select mask (data a)))
  else Raise (IndexError_boolean (shape0 a) (length mask)).

(** Column [j] of a list of rows. *)
Definition column (j : nat) (rs : list (list float)) : list float :=
  (λ r : list float, nth j r 0%float) <$> rs.

(** [np.sum(a, axis=0)]: in each column the entries are added onto 0.0
    one after the other, from the first row to the last. This is numpy's
    order for an array of more than one column, and for fewer than eight
    rows in any case; a single long column is summed in blocks, which
    the properties below do not depend on. *)
Definition np_sum0 (a : array2) : list float :=
  (λ j, foldl PrimFloat.add 0%float (column j (data a))) <$> seq 0 (shape1 a).

(** A row count as a float64. *)
Definition of_nat (n : nat) : float :=
  PrimFloat.of_uint63 (Uint63.of_Z (Z.of_nat n)).

(** [np.mean(a, axis=0)]: the column sums divided by the row count. *)
Definition np_mean0 (a : array2) : list float :=
  (λ x, PrimFloat.div x (of_nat (shape0 a))) <$> np_sum0 a.

(** [np.zeros((n, m))] *)
Definition np_zeros (n m : nat) : array2 :=
  Array2 m (replicate n (replicate m 0%float)).

(** [output[i, :] += v] *)
Definition iadd_row (output : array2) (i : nat) (v : list float)
  : result array2 :=
  match data output !! i with
  | None => Raise (IndexError_bounds i (shape0 output))
  | Some r =>
      if decide (length v = shape1 output)
      then Ok (Array2 (shape1 output)
                 (<[i := zip_with PrimFloat.add r v]> (data output)))
      else Raise (ValueError_broadcast (shape1 output) (length v))
  end.

(** [for x in xs: body(x)], the body updating [output]. *)
Fixpoint for_each {A} (xs : list A) (body : A → array2 → result array2)
    (output : array2) : result array2 :=
  match xs with
  | [] => Ok output
  | x :: xs' =>
      match body x output with
      | Ok output' => for_each xs' body output'
      | Raise e => Raise e
      end
  end.

Definition average_over_structures (samples : list Z) (values : array2)
  : result array2 :=
  let all_structures := np_unique samples in
  let output := np_zeros (length all_structures) (shape1 values) in
  for_each (enumerate all_structures) (λ '(i, structure) output,
    let mask := eq_scalar samples structure in
    match getitem_mask values mask with
    | Ok group => iadd_row output i (np_mean0 group)
    | Raise e => Raise e
    end) output.

Definition sum_over_structures (samples : list Z) (values : array2)
  : result array2 :=
  let all_structures := np_unique samples in
  let output := np_zeros (length all_structures) (shape1 values) in
  for_each (enumerate all_structures) (λ '(i, structure) output,
    let mask := eq_scalar samples structure in
    match getitem_mask values mask with
    | Ok group => iadd_row output i (np_sum0 group)
    | Raise e => Raise e
    end) output.

(** The text of the two helpers with the reduction as an argument. *)
Definition over_structures (reduce : array2 → list float)
    (samples : list Z) (values : array2) : result array2 :=
  let all_structures := np_unique samples in
  let output := np_zeros (length all_structures) (shape1 values) in
  for_each (enumerate all_structures) (λ '(i, structure) output,
    let mask := eq_scalar samples structure in
    match getitem_mask values mask with
    | Ok group => iadd_row output i (reduce group)
    | Raise e => Raise e
    end) output.

(** The body of that loop. *)
Definition loop_body (reduce : array2 → list float)
    (samples : list Z) (values : array2) : nat * Z → array2 → result array2 :=
  λ '(i, structure) output,
    let mask := eq_scalar samples structure in
    match getitem_mask values mask with
    | Ok group => iadd_row output i (reduce group)
    | Raise e => Raise e
    end.

(** The rows of [vals] that carry structure index [st], in their order in
    [vals], read off the (index, row) pairs. *)
Definition rows_of (samples : list Z) (vals : array2) (st : Z) : array2 :=
  Array2 (shape1 vals)
    ((filter (λ p : Z * list float, p.1 = st) (zip samples (data vals))).*2).

(** What [+=] leaves in a row of [m] zeros: [0.0 + x] for each entry [x]
    of [v]. *)
Definition onto_zeros (m : nat) (v : list float) : list float :=
  zip_with PrimFloat.add (replicate m 0%float) v.

(** Equal shapes and entries equal under [==], as [np.array_equal]. *)
Definition array_equal (a b : array2) : bool :=
  bool_decide (shape1 a = shape1 b) &&
  bool_decide (length (data a) = length (data b)) &&
  forallb (λ '(r, r'),
             bool_decide (length r = length r') &&
             forallb (λ '(x, y), PrimFloat.eqb x y) (zip r r'))
          (zip (data a) (data b)).

(** Every entry of every row multiplied by [k]. *)
Definition scaled (k : float) (a : array2) : array2 :=
  Array2 (shape1 a)
    ((λ r : list float, (λ x, PrimFloat.mul x k) <$> r) <$> data a).

(** The rows 1e16, -1e16, 1 (two columns), and the same rows with the
    last one moved to the front. *)
Definition cancelling : array2 :=
  Array2 2 [[1e16; 1e16]; [-1e16; -1e16]; [1; 1]]%float.
Definition cancelling_permuted : array2 :=
  Array2 2 [[1; 1]; [1e16; 1e16]; [-1e16; -1e16]]%float.

(** The rows 0.1, 0.1, 1.4 (two columns). *)
Definition tenths : array2 :=
  Array2 2 [[0.1; 0.1]; [0.1; 0.1]; [1.4; 1.4]]%float.

End F64.

(** * Lemmas *)

Lemma average_over_structures_eq :
  average_over_structures = over_structures np_mean0.
Proof. reflexivity. Qed.

Lemma sum_over_structures_eq :
  sum_over_structures = over_structures np_sum0.
Proof. reflexivity. Qed.

Lemma np_sum0_axis0 : axis0_reduction np_sum0.
Proof. intros a. unfold np_sum0. by rewrite length_fmap, length_seq. Qed.

Lemma np_mean0_axis0 : axis0_reduction np_mean0.
Proof. intros a. unfold np_mean0. by rewrite length_fmap, np_sum0_axis0. Qed.

(** ** Running the monad *)

Lemma bind_run {A B} (m : M A) (k : A → M B) h :
  (m ≫= k) h =
  match m h with
  | (Ok a, h') => k a h'
  | (Raise e, h') => (Raise e, h')
  end.
Proof. reflexivity. Qed.

Lemma load_int_run h l xs :
  h !! l = Some (IntArray xs) → load_int l h = (Ok xs, h).
Proof. intros E. unfold load_int. by rewrite E. Qed.

Lemma load_float2_run h l a :
  h !! l = Some (FloatArray2 a) → load_float2 l h = (Ok a, h).
Proof. intros E. unfold load_float2. by rewrite E. Qed.

Lemma enumerate_from_cons {A} k (x : A) xs :
  enumerate_from k (x :: xs) = (k, x) :: enumerate_from (S k) xs.
Proof. reflexivity. Qed.

Lemma length_eq_scalar ar x : length (eq_scalar ar x) = length ar.
Proof. unfold eq_scalar. by rewrite length_fmap. Qed.

Lemma zip_with_Qcplus_zeros (r : row) :
  zip_with Qcplus (replicate (length r) 0%Qc) r = r.
Proof.
  induction r as [|x r IH]; simpl; [done|].
  rewrite IH. f_equal. apply Qcplus_0_l.
Qed.

Lemma getitem_mask_ok a mask :
  length mask = shape0 a →
  getitem_mask a mask = Ok (Array2 (shape1 a) (select mask (data a))).
Proof. intros E. unfold getitem_mask. by rewrite decide_True. Qed.

Lemma getitem_mask_raise a mask :
  length mask ≠ shape0 a →
  getitem_mask a mask = Raise (IndexError_boolean (shape0 a) (length mask)).
Proof. intros E. unfold getitem_mask. by rewrite decide_False. Qed.

(** One [out[i, :] += v] on a row that still holds zeros. *)
Lemma iadd_row_fresh h out m (done rest : list row) (v : row) :
  length v = m →
  h !! out = Some (FloatArray2 (Array2 m (done ++ replicate m 0%Qc :: rest))) →
  iadd_row out (length done) v h =
  (Ok tt, <[out := FloatArray2 (Array2 m ((done ++ [v]) ++ rest))]> h).
Proof.
  intros Hv Hout. unfold iadd_row.
  rewrite bind_run, (load_float2_run _ _ _ Hout). simpl.
  rewrite list_lookup_middle by done.
  rewrite decide_True by done.
  unfold store. do 3 f_equal.
  replace (length done) with (length done + 0) at 1 by lia.
  rewrite insert_app_r. simpl.
  rewrite <- Hv, zip_with_Qcplus_zeros. by rewrite <- app_assoc.
Qed.

Section loop.
Context (reduce : array2 → row).
Context (ls lv out : loc) (s : list Z) (v : array2).
Context (Hls : out ≠ ls) (Hlv : out ≠ lv).

(** The loop over the remaining structures fills the remaining rows. *)
Lemma loop_ok (Hlen : length s = shape0 v) sts :
  ∀ h done,
  (∀ st, st ∈ sts → length (reduce (group_of s v st)) = shape1 v) →
  h !! ls = Some (IntArray s) →
  h !! lv = Some (FloatArray2 v) →
  h !! out = Some (FloatArray2 (Array2 (shape1 v)
               (done ++ replicate (length sts) (replicate (shape1 v) 0%Qc)))) →
  for_each (enumerate_from (length done) sts) (loop_body reduce ls lv out) h =
  (Ok tt, <[out := FloatArray2 (Array2 (shape1 v)
               (done ++ ((λ st, reduce (group_of s v st)) <$> sts)))]> h).
Proof.
  induction sts as [|st sts IH]; intros h done Hred Hs Hv Hout.
  - simpl in *. by rewrite list_insert_id.
  - rewrite enumerate_from_cons. cbn [for_each].
    rewrite bind_run. unfold loop_body at 1.
    rewrite !bind_run, (load_int_run _ _ _ Hs). cbn [ret mret M_ret].
    rewrite !bind_run, (load_float2_run _ _ _ Hv). unfold lift.
    rewrite getitem_mask_ok by (by rewrite length_eq_scalar).
    cbn [replicate length] in Hout.
    fold (group_of s v st).
    rewrite (iadd_row_fresh _ _ (shape1 v) done _ _
               (Hred st ltac:(left)) Hout).
    replace (S (length done)) with (length (done ++ [reduce (group_of s v st)]))
      by (rewrite length_app; simpl; lia).
    rewrite IH.
    + rewrite list_insert_insert_eq. rewrite <- app_assoc. done.
    + intros st' Hst'. apply Hred. by right.
    + by rewrite list_lookup_insert_ne.
    + by rewrite list_lookup_insert_ne.
    + rewrite list_lookup_insert_eq; [done|]. by eapply lookup_lt_Some.
Qed.

(** With a mask of the wrong length the first iteration raises. *)
Lemma loop_raise (Hlen : length s ≠ shape0 v) k st sts h :
  h !! ls = Some (IntArray s) →
  h !! lv = Some (FloatArray2 v) →
  for_each (enumerate_from k (st :: sts)) (loop_body reduce ls lv out) h =
  (Raise (IndexError_boolean (shape0 v) (length s)), h).
Proof.
  intros Hs Hv. rewrite enumerate_from_cons. cbn [for_each].
  rewrite bind_run. unfold loop_body at 1.
  rewrite !bind_run, (load_int_run _ _ _ Hs). cbn [ret mret M_ret].
  rewrite !bind_run, (load_float2_run _ _ _ Hv). unfold lift.
  rewrite getitem_mask_raise by (by rewrite length_eq_scalar).
  by rewrite length_eq_scalar.
Qed.
End loop.

(** ** [np.unique] returns the distinct elements in ascending order *)

Lemma drop_repeats_cons_cons a b (l : list Z) :
  drop_repeats (a :: b :: l) =
  if decide (a = b) then drop_repeats (b :: l) else a :: drop_repeats (b :: l).
Proof. reflexivity. Qed.

Lemma elem_of_drop_repeats (l : list Z) x : x ∈ drop_repeats l ↔ x ∈ l.
Proof.
  induction l as [|a l IH]; [done|].
  destruct l as [|b l]; [done|].
  rewrite drop_repeats_cons_cons. case_decide as E.
  - rewrite IH. subst. rewrite !elem_of_cons. tauto.
  - rewrite elem_of_cons, IH. by rewrite (elem_of_cons (b :: l)).
Qed.

Lemma drop_repeats_sorted (l : list Z) :
  StronglySorted Z.le l → StronglySorted Z.lt (drop_repeats l).
Proof.
  induction l as [|a l IH]; intros Hs; [constructor|].
  apply StronglySorted_cons in Hs as [Ha Hs].
  destruct l as [|b l]; [repeat constructor|].
  rewrite drop_repeats_cons_cons. case_decide as E; [by apply IH|].
  constructor; [by apply IH|].
  apply Forall_forall. intros z Hz. rewrite elem_of_drop_repeats in Hz.
  assert (b ≤ z)%Z.
  { apply elem_of_cons in Hz as [->|Hz]; [lia|].
    apply StronglySorted_cons in Hs as [Hb _].
    by apply (proj1 (Forall_forall _ _) Hb). }
  apply Forall_cons in Ha as [Hab _]. lia.
Qed.

Lemma np_unique_sorted ar : StronglySorted Z.lt (np_unique ar).
Proof. apply drop_repeats_sorted, StronglySorted_merge_sort; apply _. Qed.

Lemma elem_of_np_unique ar x : x ∈ np_unique ar ↔ x ∈ ar.
Proof.
  unfold np_unique. by rewrite elem_of_drop_repeats, merge_sort_Permutation.
Qed.

Lemma StronglySorted_lt_NoDup (l : list Z) : StronglySorted Z.lt l → NoDup l.
Proof.
  induction 1 as [|a l Hs IH Ha]; constructor; [|done].
  intros Hin. apply (proj1 (Forall_forall _ _) Ha) in Hin. lia.
Qed.

Lemma NoDup_np_unique ar : NoDup (np_unique ar).
Proof. apply StronglySorted_lt_NoDup, np_unique_sorted. Qed.

(** An ascending list without repeats is determined by its elements. *)
Lemma ascending_unique (l1 l2 : list Z) :
  StronglySorted Z.lt l1 → StronglySorted Z.lt l2 →
  (∀ x, x ∈ l1 ↔ x ∈ l2) → l1 = l2.
Proof.
  intros H1 H2 E.
  apply (StronglySorted_unique_strong Z.lt); [intros; lia|done..|].
  apply NoDup_Permutation; auto using StronglySorted_lt_NoDup.
Qed.

Lemma np_unique_Permutation ar1 ar2 : ar1 ≡ₚ ar2 → np_unique ar1 = np_unique ar2.
Proof.
  intros E. apply ascending_unique; auto using np_unique_sorted.
  intros x. by rewrite !elem_of_np_unique, E.
Qed.

Lemma np_unique_nil : np_unique [] = [].
Proof. reflexivity. Qed.

Lemma np_unique_nonempty ar : ar ≠ [] → np_unique ar ≠ [].
Proof.
  destruct ar as [|x ar]; [done|]. intros _ E.
  assert (x ∈ np_unique (x :: ar)) as Hx by (apply elem_of_np_unique; left).
  rewrite E in Hx. by apply elem_of_nil in Hx.
Qed.

Lemma length_np_unique ar : length (np_unique ar) = length (remove_dups ar).
Proof.
  apply Permutation_length, NoDup_Permutation;
    auto using NoDup_np_unique, NoDup_remove_dups.
  intros x. by rewrite elem_of_np_unique, elem_of_remove_dups.
Qed.

Lemma np_unique_NoDup_Permutation ar : NoDup ar → np_unique ar ≡ₚ ar.
Proof.
  intros Hnd. apply NoDup_Permutation; auto using NoDup_np_unique.
  apply elem_of_np_unique.
Qed.

(** ** What a call does to the store *)

Section run.
Context (reduce : array2 → row).
Context (h : heap) (ls lv : loc) (s : list Z) (v : array2).
Context (Hs : h !! ls = Some (IntArray s)).
Context (Hv : h !! lv = Some (FloatArray2 v)).

Lemma over_structures_prefix :
  over_structures reduce (Descriptor ls lv) h =
  match for_each (enumerate (np_unique s))
          (loop_body reduce ls lv (length h))
          (h ++ [FloatArray2 (zeros (length (np_unique s)) (shape1 v))]) with
  | (Ok _, h') => (Ok (length h), h')
  | (Raise e, h') => (Raise e, h')
  end.
Proof.
  unfold over_structures. cbn [samples_structure values].
  rewrite !bind_run, (load_int_run _ _ _ Hs). cbn [ret mret M_ret].
  rewrite !bind_run, (load_float2_run _ _ _ Hv).
  unfold np_zeros, alloc. rewrite bind_run.
  by destruct (for_each _ _ _) as [[[]|e] h'].
Qed.

Lemma over_structures_run :
  length s = shape0 v →
  (∀ st, st ∈ np_unique s → length (reduce (group_of s v st)) = shape1 v) →
  over_structures reduce (Descriptor ls lv) h =
  (Ok (length h), h ++ [FloatArray2 (aggregate reduce s v)]).
Proof.
  intros Hlen Hred. rewrite over_structures_prefix.
  pose proof (lookup_lt_Some _ _ _ Hs). pose proof (lookup_lt_Some _ _ _ Hv).
  unfold enumerate.
  rewrite (loop_ok reduce ls lv (length h) s v) with (done := []);
    [| lia | lia | done | done | by apply lookup_app_l_Some
     | by apply lookup_app_l_Some | ].
  - f_equal. replace (length h) with (length h + 0) at 1 by lia.
    by rewrite insert_app_r.
  - by rewrite list_lookup_middle.
Qed.

Lemma over_structures_run_nil :
  s = [] →
  over_structures reduce (Descriptor ls lv) h =
  (Ok (length h), h ++ [FloatArray2 (Array2 (shape1 v) [])]).
Proof. intros E. rewrite over_structures_prefix. by rewrite E. Qed.

Lemma over_structures_run_raise :
  s ≠ [] → length s ≠ shape0 v →
  over_structures reduce (Descriptor ls lv) h =
  (Raise (IndexError_boolean (shape0 v) (length s)),
   h ++ [FloatArray2 (zeros (length (np_unique s)) (shape1 v))]).
Proof.
  intros Hne Hlen. rewrite over_structures_prefix.
  apply np_unique_nonempty in Hne.
  destruct (np_unique s) as [|st sts]; [done|].
  unfold enumerate.
  by rewrite (loop_raise reduce ls lv (length h) s v);
    [| | apply lookup_app_l_Some | apply lookup_app_l_Some].
Qed.
End run.

Section call.
Context (reduce : array2 → row) (Hred : axis0_reduction reduce).

Lemma call_ok s v :
  length s = shape0 v →
  call (over_structures reduce) s v = Ok (aggregate reduce s v).
Proof.
  intros Hlen. unfold call.
  by rewrite (over_structures_run reduce _ 0 1 s v)
    by (try done; intros; apply (Hred (group_of s v _))).
Qed.

Lemma call_nil v :
  call (over_structures reduce) [] v = Ok (Array2 (shape1 v) []).
Proof.
  unfold call. by rewrite (over_structures_run_nil reduce _ 0 1 [] v).
Qed.

Lemma call_raise s v :
  s ≠ [] → length s ≠ shape0 v →
  call (over_structures reduce) s v =
  Raise (IndexError_boolean (shape0 v) (length s)).
Proof.
  intros Hne Hlen. unfold call.
  by rewrite (over_structures_run_raise reduce _ 0 1 s v).
Qed.
End call.

(** ** Groups *)

Lemma select_eq_scalar {A} (s : list Z) (rows : list A) st :
  select (eq_scalar s st) rows =
  (filter (λ p : Z * A, p.1 = st) (zip s rows)).*2.
Proof.
  revert rows. induction s as [|a s IH]; intros [|r rows]; try done.
  cbn [eq_scalar fmap list_fmap select zip zip_with].
  fold (eq_scalar s st). fold (zip s rows).
  rewrite filter_cons. cbn [fst]. rewrite IH.
  case_bool_decide; by case_decide.
Qed.

Lemma group_of_rows_of s v st : group_of s v st = rows_of s v st.
Proof. unfold group_of, rows_of. by rewrite select_eq_scalar. Qed.

Lemma length_select_eq_scalar {A} (s : list Z) (rows : list A) st :
  length s = length rows →
  length (select (eq_scalar s st) rows) = count_of s st.
Proof.
  unfold count_of. revert rows.
  induction s as [|a s IH]; intros [|r rows] Hlen; try done.
  cbn [eq_scalar fmap list_fmap select]. fold (eq_scalar s st).
  rewrite filter_cons. simpl in Hlen.
  case_bool_decide; case_decide; try done; simpl; rewrite IH; auto with lia.
Qed.

Lemma count_of_pos s st : st ∈ s → 0 < count_of s st.
Proof.
  intros Hin. unfold count_of.
  assert (st ∈ filter (λ x, x = st) s) as Hf by (by apply list_elem_of_filter).
  destruct (filter _ s); [by apply elem_of_nil in Hf | simpl; lia].
Qed.

Lemma count_of_NoDup s st : NoDup s → st ∈ s → count_of s st = 1.
Proof.
  unfold count_of. induction 1 as [|a s Ha Hnd IH]; intros Hin.
  - by apply elem_of_nil in Hin.
  - rewrite filter_cons. case_decide as E.
    + subst a. simpl. f_equal.
      assert (filter (λ x, x = st) s = []) as ->; [|done].
      apply elem_of_nil_inv. intros x Hx.
      apply list_elem_of_filter in Hx as [-> Hx]. done.
    + apply IH. apply elem_of_cons in Hin as [->|]; done.
Qed.

(** With one row per index, the group of the index at position [i] is
    the row at position [i]. *)
Lemma select_single {A} (s : list Z) (rows : list A) i st r :
  NoDup s → length s = length rows →
  s !! i = Some st → rows !! i = Some r →
  select (eq_scalar s st) rows = [r].
Proof.
  intros Hnd Hlen Hs Hr.
  assert (length (select (eq_scalar s st) rows) = 1) as Hone.
  { rewrite length_select_eq_scalar by done.
    apply count_of_NoDup; [done|]. by eapply list_elem_of_lookup_2. }
  assert (r ∈ select (eq_scalar s st) rows) as Hin.
  { rewrite select_eq_scalar.
    apply (list_elem_of_fmap_2' snd _ (st, r)); [|done].
    apply list_elem_of_filter. split; [done|].
    apply list_elem_of_lookup. exists i.
    apply lookup_zip_with_Some. eauto. }
  destruct (select _ rows) as [|x [|y l]]; try done.
  apply list_elem_of_singleton in Hin. by subst.
Qed.

(** ** Reductions *)

Lemma fmap_nth_seq (r : list Qc) :
  (λ j, nth j r 0%Qc) <$> seq 0 (length r) = r.
Proof.
  apply list_eq. intros i. rewrite list_lookup_fmap.
  destruct (decide (i < length r)) as [Hi|Hi].
  - rewrite lookup_seq_lt by done. simpl. rewrite nth_lookup.
    destruct (lookup_lt_is_Some_2 r i Hi) as [x ->]. done.
  - rewrite lookup_seq_ge by lia. symmetry. apply lookup_ge_None. lia.
Qed.

Lemma np_sum0_single m (r : list Qc) :
  length r = m → np_sum0 (Array2 m [r]) = r.
Proof.
  intros <-. unfold np_sum0, column. cbn [shape1 data fmap list_fmap Qc_sum foldr].
  rewrite <- (fmap_nth_seq r) at 2.
  apply list_fmap_ext. intros _ j _. ring.
Qed.

Lemma Qcdiv_1 (x : Qc) : (x / Qc_of_Z (Z.of_nat 1))%Qc = x.
Proof.
  change (Z.of_nat 1) with 1%Z. rewrite Z2Qc_inj_1.
  transitivity ((x * 1) / 1)%Qc; [by rewrite Qcmult_1_r|].
  by apply Qcdiv_mult_l.
Qed.

Lemma np_mean0_single m (r : list Qc) :
  length r = m → np_mean0 (Array2 m [r]) = r.
Proof.
  intros Hm. unfold np_mean0. rewrite np_sum0_single by done.
  unfold shape0. cbn [data length].
  rewrite <- (list_fmap_id r) at 2.
  apply list_fmap_ext. intros _ x _. apply Qcdiv_1.
Qed.

(** ** Calls on a descriptor whose arrays have the wrong type *)

Lemma over_structures_bad_samples reduce ls lv (h : heap) :
  (∀ s, h !! ls ≠ Some (IntArray s)) →
  over_structures reduce (Descriptor ls lv) h = (Raise TypeError, h).
Proof.
  intros Hbad. unfold over_structures. cbn [samples_structure values].
  rewrite !bind_run. unfold load_int.
  destruct (h !! ls) as [[s|a]|] eqn:E; try done. by destruct (Hbad s).
Qed.

Lemma over_structures_bad_values reduce ls lv (h : heap) s :
  h !! ls = Some (IntArray s) →
  (∀ v, h !! lv ≠ Some (FloatArray2 v)) →
  over_structures reduce (Descriptor ls lv) h = (Raise TypeError, h).
Proof.
  intros Hs Hbad. unfold over_structures. cbn [samples_structure values].
  rewrite !bind_run, (load_int_run _ _ _ Hs). cbn [ret mret M_ret].
  rewrite !bind_run. unfold load_float2.
  destruct (h !! lv) as [[s'|a]|] eqn:E; try done. by destruct (Hbad a).
Qed.

(** Whatever the outcome, a call only appends to the store; when it
    returns, it has appended exactly the array it returns. *)
Lemma over_structures_frame reduce (Hred : axis0_reduction reduce) d (h : heap) :
  ∃ new : heap,
    (over_structures reduce d h).2 = h ++ new ∧
    ∀ l, (over_structures reduce d h).1 = Ok l →
         l = length h ∧ ∃ out, new = [FloatArray2 out].
Proof.
  destruct d as [ls lv].
  destruct (h !! ls) as [[s|a]|] eqn:Es; cycle 1.
  { rewrite over_structures_bad_samples by (by intros s; rewrite Es).
    exists []. by rewrite app_nil_r. }
  { rewrite over_structures_bad_samples by (by intros s; rewrite Es).
    exists []. by rewrite app_nil_r. }
  destruct (h !! lv) as [[s'|v]|] eqn:Ev.
  { rewrite (over_structures_bad_values _ _ _ _ s) by (done || by intros v; rewrite Ev).
    exists []. by rewrite app_nil_r. }
  2:{ rewrite (over_structures_bad_values _ _ _ _ s) by (done || by intros v; rewrite Ev).
      exists []. by rewrite app_nil_r. }
  destruct (decide (length s = shape0 v)) as [Hlen|Hlen].
  { rewrite (over_structures_run reduce h ls lv s v)
      by (try done; intros; apply (Hred (group_of s v _))).
    eexists. split; [done|]. intros l [= <-]. eauto. }
  destruct (decide (s = [])) as [Hnil|Hnil].
  { rewrite (over_structures_run_nil reduce h ls lv s v) by done.
    eexists. split; [done|]. intros l [= <-]. eauto. }
  rewrite (over_structures_run_raise reduce h ls lv s v) by done.
  eexists. split; [done|]. done.
Qed.

(** ** Facts about [aggregate] *)

Lemma np_unique_replicate3 st : np_unique [st; st; st] = [st].
Proof.
  apply ascending_unique; [apply np_unique_sorted|repeat constructor|].
  intros x. rewrite elem_of_np_unique, !elem_of_cons. tauto.
Qed.

Lemma aggregate_shape reduce (Hred : axis0_reduction reduce) s v :
  shape0 (aggregate reduce s v) = length (remove_dups s) ∧
  shape1 (aggregate reduce s v) = shape1 v ∧
  rectangular (aggregate reduce s v).
Proof.
  unfold aggregate, shape0, rectangular. cbn [data shape1].
  rewrite length_fmap, length_np_unique. split_and!; [done..|].
  apply Forall_fmap, Forall_forall. intros st _. apply (Hred (group_of s v st)).
Qed.

Lemma aggregate_rows_of reduce s v :
  aggregate reduce s v =
  Array2 (shape1 v) ((λ st, reduce (rows_of s v st)) <$> np_unique s).
Proof.
  unfold aggregate. f_equal. apply list_fmap_ext. intros _ st _.
  by rewrite group_of_rows_of.
Qed.

Lemma np_unique_idem (idx : list Z) :
  StronglySorted Z.lt idx → np_unique idx = idx.
Proof.
  intros Hs. apply ascending_unique; auto using np_unique_sorted.
  apply elem_of_np_unique.
Qed.

Lemma zip_fmap_diag {A B} (g : A → B) (l : list A) :
  zip l (g <$> l) = (λ x, (x, g x)) <$> l.
Proof. induction l as [|x l IH]; [done|]. csimpl. by f_equal. Qed.

Section one_row_per_index.
Context (reduce : array2 → list Qc).
Context (Hred : axis0_reduction reduce) (Hone : keeps_single_row reduce).
Context (s : list Z) (v : array2).
Context (Hlen : length s = shape0 v) (Hnd : NoDup s) (Hrect : rectangular v).

Lemma reduce_groups_id :
  (λ st, reduce (group_of s v st)) <$> s = data v.
Proof using Hone Hlen Hnd Hrect.
  apply list_eq. intros i. rewrite list_lookup_fmap.
  destruct (s !! i) as [st|] eqn:Es; simpl.
  - destruct (lookup_lt_is_Some_2 (data v) i) as [r Er].
    { apply lookup_lt_Some in Es. unfold shape0 in Hlen. lia. }
    rewrite Er. f_equal. unfold group_of.
    rewrite (select_single s (data v) i st r) by done.
    apply Hone. by apply (proj1 (Forall_lookup _ _) Hrect i r).
  - symmetry. apply lookup_ge_None. apply lookup_ge_None in Es.
    unfold shape0 in Hlen. lia.
Qed.

Lemma aggregate_one_row_per_index :
  zip (np_unique s) (data (aggregate reduce s v)) ≡ₚ zip s (data v).
Proof using Hone Hlen Hnd Hrect.
  rewrite <- reduce_groups_id. unfold aggregate. cbn [data].
  rewrite !zip_fmap_diag.
  by rewrite (np_unique_NoDup_Permutation s Hnd).
Qed.

Lemma aggregate_ascending_id :
  StronglySorted Z.lt s → aggregate reduce s v = v.
Proof using Hone Hlen Hnd Hrect.
  intros Hs. unfold aggregate.
  rewrite np_unique_idem, reduce_groups_id by done. by destruct v.
Qed.
End one_row_per_index.

Lemma aggregate_idempotent reduce s v :
  axis0_reduction reduce → keeps_single_row reduce →
  aggregate reduce (np_unique s) (aggregate reduce s v) = aggregate reduce s v.
Proof.
  intros Hred Hone.
  destruct (aggregate_shape reduce Hred s v) as (Hrows & _ & Hrect).
  apply aggregate_ascending_id; auto using np_unique_sorted, NoDup_np_unique.
  by rewrite Hrows, length_np_unique.
Qed.

Lemma np_sum0_keeps_single_row : keeps_single_row np_sum0.
Proof. intros m r. apply np_sum0_single. Qed.

Lemma np_mean0_keeps_single_row : keeps_single_row np_mean0.
Proof. intros m r. apply np_mean0_single. Qed.

Lemma shape0_rows_of s v st :
  length s = shape0 v → shape0 (rows_of s v st) = count_of s st.
Proof.
  intros Hlen. rewrite <- group_of_rows_of. unfold shape0, group_of. cbn [data].
  by apply length_select_eq_scalar.
Qed.

Lemma group_nonempty s v st :
  length s = shape0 v → st ∈ np_unique s → data (group_of s v st) ≠ [].
Proof.
  intros Hlen Hst Hnil.
  assert (0 < length (data (group_of s v st))) as Hpos; [|rewrite Hnil in Hpos; simpl in Hpos; lia].
  unfold group_of. cbn [data]. rewrite length_select_eq_scalar by done.
  by apply count_of_pos, elem_of_np_unique.
Qed.

(** Two reductions that agree on every array with at least one row give
    the same call. *)
Lemma over_structures_ext red1 red2 d (h : heap) :
  axis0_reduction red2 →
  (∀ a, data a ≠ [] → red1 a = red2 a) →
  over_structures red1 d h = over_structures red2 d h.
Proof.
  intros Hred Hagree. destruct d as [ls lv].
  destruct (h !! ls) as [[s|a]|] eqn:Es; cycle 1.
  { by rewrite !over_structures_bad_samples by (by intros s; rewrite Es). }
  { by rewrite !over_structures_bad_samples by (by intros s; rewrite Es). }
  destruct (h !! lv) as [[s'|v]|] eqn:Ev.
  { by rewrite !(over_structures_bad_values _ _ _ _ s)
      by (done || by intros v; rewrite Ev). }
  2:{ by rewrite !(over_structures_bad_values _ _ _ _ s)
        by (done || by intros v; rewrite Ev). }
  destruct (decide (length s = shape0 v)) as [Hlen|Hlen].
  { rewrite (over_structures_run red2 h ls lv s v)
      by (try done; intros; apply (Hred (group_of s v _))).
    rewrite (over_structures_run red1 h ls lv s v); try done.
    - do 4 f_equal. unfold aggregate. f_equal.
      apply list_fmap_ext. intros i st Hi. apply Hagree, group_nonempty; [done|].
      by eapply list_elem_of_lookup_2.
    - intros st Hst. rewrite Hagree by (by apply group_nonempty).
      apply (Hred (group_of s v st)). }
  destruct (decide (s = [])) as [Hnil|Hnil].
  { by rewrite !(over_structures_run_nil _ h ls lv s v). }
  by rewrite !(over_structures_run_raise _ h ls lv s v).
Qed.



(** ** The helpers run on small inputs *)

Example sum_over_structures_unsorted :
  call sum_over_structures [7; 2; 7]%Z example_values
  = Ok (Array2 2 [[Qc_of_Z 3; Qc_of_Z 3]; [Qc_of_Z 6; Qc_of_Z 6]]).
Proof. vm_compute. Qc_entries. Qed.

Example average_over_structures_unsorted :
  call average_over_structures [7; -2; 7]%Z example_values
  = Ok (Array2 2 [[Qc_of_Z 3; Qc_of_Z 3]; [Qc_of_Z 3; Qc_of_Z 3]]).
Proof. vm_compute. Qc_entries. Qed.

Example average_over_structures_halves :
  call average_over_structures [5; 5]%Z
    (Array2 1 [[Qc_of_Z 1]; [Qc_of_Z 2]])
  = Ok (Array2 1 [[(Qc_of_Z 3 / Qc_of_Z 2)%Qc]]).
Proof. vm_compute. Qc_entries. Qed.

Example sum_over_structures_short_mask :
  sum_over_structures (Descriptor 0 1)
    [IntArray [4; 4]%Z; FloatArray2 example_values]
  = (Raise (IndexError_boolean 3 2),
     [IntArray [4; 4]%Z; FloatArray2 example_values; FloatArray2 (zeros 1 2)]).
Proof. reflexivity. Qed.

(** ** The float64 helpers *)

Lemma f64_average_over_structures_eq :
  F64.average_over_structures = F64.over_structures F64.np_mean0.
Proof. reflexivity. Qed.

Lemma f64_sum_over_structures_eq :
  F64.sum_over_structures = F64.over_structures F64.np_sum0.
Proof. reflexivity. Qed.

Lemma f64_np_sum0_length a : length (F64.np_sum0 a) = F64.shape1 a.
Proof. unfold F64.np_sum0. by rewrite length_fmap, length_seq. Qed.

Lemma f64_np_mean0_length a : length (F64.np_mean0 a) = F64.shape1 a.
Proof. unfold F64.np_mean0. by rewrite length_fmap, f64_np_sum0_length. Qed.

Lemma f64_getitem_mask_rows_of s v st :
  length s = F64.shape0 v →
  F64.getitem_mask v (eq_scalar s st) = Ok (F64.rows_of s v st).
Proof.
  intros Hlen. unfold F64.getitem_mask, F64.rows_of.
  rewrite decide_True by (by rewrite length_eq_scalar).
  by rewrite select_eq_scalar.
Qed.

Lemma f64_shape0_rows_of s v st :
  length s = F64.shape0 v → F64.shape0 (F64.rows_of s v st) = count_of s st.
Proof.
  intros Hlen. unfold F64.shape0, F64.rows_of. cbn [F64.data].
  rewrite <- select_eq_scalar. by apply length_select_eq_scalar.
Qed.

(** The loop over the remaining structures fills the remaining rows. *)
Lemma f64_loop_ok reduce s v (Hlen : length s = F64.shape0 v) sts :
  ∀ done,
  (∀ st, st ∈ sts → length (reduce (F64.rows_of s v st)) = F64.shape1 v) →
  F64.for_each (enumerate_from (length done) sts) (F64.loop_body reduce s v)
    (F64.Array2 (F64.shape1 v)
       (done ++ replicate (length sts) (replicate (F64.shape1 v) 0%float)))
  = Ok (F64.Array2 (F64.shape1 v)
       (done ++ ((λ st, F64.onto_zeros (F64.shape1 v)
                          (reduce (F64.rows_of s v st))) <$> sts))).
Proof.
  induction sts as [|st sts IH]; intros done Hred.
  - reflexivity.
  - rewrite enumerate_from_cons. cbn [F64.for_each].
    unfold F64.loop_body at 1. cbn zeta.
    rewrite f64_getitem_mask_rows_of by done.
    unfold F64.iadd_row, F64.shape0. cbn [F64.data F64.shape1 replicate length].
    rewrite list_lookup_middle by done.
    rewrite decide_True by (apply Hred; left).
    rewrite insert_app_r_alt, Nat.sub_diag by lia. cbn [insert list_insert].
    fold (F64.onto_zeros (F64.shape1 v) (reduce (F64.rows_of s v st))).
    rewrite fmap_cons, !(cons_middle _ done), !app_assoc.
    replace (S (length done)) with
      (length (done ++ [F64.onto_zeros (F64.shape1 v)
                          (reduce (F64.rows_of s v st))]))
      by (rewrite length_app; simpl; lia).
    apply IH. intros st' Hst'. apply Hred. by right.
Qed.

(** What a call returns on equal row counts. *)
Lemma f64_call_ok reduce s v :
  (∀ a, length (reduce a) = F64.shape1 a) →
  length s = F64.shape0 v →
  F64.over_structures reduce s v
  = Ok (F64.Array2 (F64.shape1 v)
          ((λ st, F64.onto_zeros (F64.shape1 v)
                    (reduce (F64.rows_of s v st))) <$> np_unique s)).
Proof.
  intros Hred Hlen. unfold F64.over_structures, F64.np_zeros, enumerate.
  apply (f64_loop_ok reduce s v Hlen (np_unique s) []).
  intros st _. apply (Hred (F64.rows_of s v st)).
Qed.

(** Permuting the (index, row) pairs permutes the rows of every
    structure and keeps the indices. *)
Lemma f64_rows_of_Permutation (s s' : list Z) (v v' : F64.array2) (st : Z) :
  zip s' (F64.data v') ≡ₚ zip s (F64.data v) →
  F64.data (F64.rows_of s' v' st) ≡ₚ F64.data (F64.rows_of s v st).
Proof. intros Hperm. unfold F64.rows_of. cbn [F64.data]. by rewrite Hperm. Qed.

Lemma f64_samples_Permutation (s s' : list Z) (v v' : F64.array2) :
  length s = F64.shape0 v → length s' = F64.shape0 v' →
  zip s' (F64.data v') ≡ₚ zip s (F64.data v) → s' ≡ₚ s.
Proof.
  intros Hlen Hlen' Hperm.
  rewrite <- (fst_zip s (F64.data v)), <- (fst_zip s' (F64.data v'))
    by (unfold F64.shape0 in *; lia).
  by rewrite Hperm.
Qed.

(** * The properties of the specification *)

(** C1: on three rows [[1,1],[3,3],[5,5]] that all carry one structure
    index, the mean-mode helper returns the single row [3,3] and the
    sum-mode helper the single row [9,9]. *)
Theorem C1_worked_example (st : Z) :
  call average_over_structures [st; st; st] example_values
    = Ok (Array2 2 [[Qc_of_Z 3; Qc_of_Z 3]]) ∧
  call sum_over_structures [st; st; st] example_values
    = Ok (Array2 2 [[Qc_of_Z 9; Qc_of_Z 9]]).
Proof.
  rewrite average_over_structures_eq, sum_over_structures_eq.
  rewrite !call_ok by (done || apply np_mean0_axis0 || apply np_sum0_axis0).
  unfold aggregate, group_of, eq_scalar. rewrite np_unique_replicate3.
  cbn [fmap list_fmap]. rewrite !bool_decide_eq_true_2 by done.
  cbn [example_values select data shape1].
  split; f_equal; f_equal; f_equal; vm_compute; Qc_entries.
Qed.

(** C2: when the index mapping and the feature array have equal row
    counts, each helper returns a rectangular array with one row per
    distinct structure index and the column count of the feature array. *)
Theorem C2_output_shape (s : list Z) (v : array2) :
  length s = shape0 v →
  (∃ out, call average_over_structures s v = Ok out ∧
          shape0 out = length (remove_dups s) ∧
          shape1 out = shape1 v ∧ rectangular out) ∧
  (∃ out, call sum_over_structures s v = Ok out ∧
          shape0 out = length (remove_dups s) ∧
          shape1 out = shape1 v ∧ rectangular out).
Proof.
  intros Hlen.
  rewrite average_over_structures_eq, sum_over_structures_eq.
  rewrite !call_ok by (done || apply np_mean0_axis0 || apply np_sum0_axis0).
  split; eexists; (split; [done|]); apply aggregate_shape;
    [apply np_mean0_axis0 | apply np_sum0_axis0].
Qed.

Lemma C2_output_shape_witness :
  (∃ out, call average_over_structures [7; 2; 7]%Z example_values = Ok out ∧
          shape0 out = 2 ∧ shape1 out = 2 ∧ rectangular out) ∧
  (∃ out, call sum_over_structures [7; 2; 7]%Z example_values = Ok out ∧
          shape0 out = 2 ∧ shape1 out = 2 ∧ rectangular out).
Proof. apply (C2_output_shape [7; 2; 7]%Z example_values). reflexivity. Defined.

(** C3 as stated fails over float64: the three rows 1e16, -1e16, 1 of one
    structure sum to 1, and the same rows with the last one first sum to
    0, so a permutation of the input rows changes the output of both
    helpers. *)
Lemma C3_counterexample :
  length [0; 0; 0]%Z = F64.shape0 F64.cancelling ∧
  zip [0; 0; 0]%Z (F64.data F64.cancelling_permuted)
    ≡ₚ zip [0; 0; 0]%Z (F64.data F64.cancelling) ∧
  F64.sum_over_structures [0; 0; 0]%Z F64.cancelling
    = Ok (F64.Array2 2 [[1; 1]]%float) ∧
  F64.sum_over_structures [0; 0; 0]%Z F64.cancelling_permuted
    = Ok (F64.Array2 2 [[0; 0]]%float) ∧
  F64.array_equal (F64.Array2 2 [[1; 1]]%float) (F64.Array2 2 [[0; 0]]%float)
    = false ∧
  ∃ out out',
    F64.average_over_structures [0; 0; 0]%Z F64.cancelling = Ok out ∧
    F64.average_over_structures [0; 0; 0]%Z F64.cancelling_permuted
      = Ok out' ∧
    F64.array_equal out out' = false.
Proof.
  split_and!; try reflexivity.
  - apply (Permutation_app_comm [_] [_; _]).
  - do 2 eexists. split_and!; reflexivity.
Qed.

(** C3, amended: on equal row counts the output rows follow the ascending
    order of the distinct structure indices, row [i] being what [+=]
    leaves of the reduction of the rows that carry the [i]-th index; a
    permutation of the (index, row) pairs keeps the indices and their
    order, and each output row is the reduction of the same rows taken
    in their new order; when the permutation keeps the rows of every
    structure in their relative order, the output is identical. *)
Theorem C3_ascending_and_order_within_groups (s : list Z) (v : F64.array2) :
  length s = F64.shape0 v →
  ∃ idx : list Z,
    StronglySorted Z.lt idx ∧ (∀ x, x ∈ idx ↔ x ∈ s) ∧
    F64.average_over_structures s v
      = Ok (F64.Array2 (F64.shape1 v)
              ((λ st, F64.onto_zeros (F64.shape1 v)
                        (F64.np_mean0 (F64.rows_of s v st))) <$> idx)) ∧
    F64.sum_over_structures s v
      = Ok (F64.Array2 (F64.shape1 v)
              ((λ st, F64.onto_zeros (F64.shape1 v)
                        (F64.np_sum0 (F64.rows_of s v st))) <$> idx)) ∧
    ∀ s' v',
      length s' = F64.shape0 v' → F64.shape1 v' = F64.shape1 v →
      zip s' (F64.data v') ≡ₚ zip s (F64.data v) →
      F64.average_over_structures s' v'
        = Ok (F64.Array2 (F64.shape1 v)
                ((λ st, F64.onto_zeros (F64.shape1 v)
                          (F64.np_mean0 (F64.rows_of s' v' st))) <$> idx)) ∧
      F64.sum_over_structures s' v'
        = Ok (F64.Array2 (F64.shape1 v)
                ((λ st, F64.onto_zeros (F64.shape1 v)
                          (F64.np_sum0 (F64.rows_of s' v' st))) <$> idx)) ∧
      (∀ st, F64.data (F64.rows_of s' v' st)
               ≡ₚ F64.data (F64.rows_of s v st)) ∧
      ((∀ st, st ∈ idx → F64.rows_of s' v' st = F64.rows_of s v st) →
       F64.average_over_structures s' v' = F64.average_over_structures s v ∧
       F64.sum_over_structures s' v' = F64.sum_over_structures s v).
Proof.
  intros Hlen. exists (np_unique s).
  rewrite f64_average_over_structures_eq, f64_sum_over_structures_eq.
  rewrite !f64_call_ok by (done || apply f64_np_mean0_length
                           || apply f64_np_sum0_length).
  split_and!; [apply np_unique_sorted | apply elem_of_np_unique | done..|].
  intros s' v' Hlen' Hcols Hperm.
  rewrite !f64_call_ok by (done || apply f64_np_mean0_length
                           || apply f64_np_sum0_length).
  rewrite Hcols.
  rewrite (np_unique_Permutation s' s)
    by (by apply (f64_samples_Permutation s s' v v')).
  split_and!; [done..| |].
  - intros st. by apply f64_rows_of_Permutation.
  - intros Hsame. split; do 2 f_equal;
      apply list_fmap_ext; intros i st Hst; cbv beta;
      by rewrite Hsame by (by eapply list_elem_of_lookup_2).
Qed.

Lemma C3_ascending_and_order_within_groups_witness :
  ∃ idx : list Z,
    StronglySorted Z.lt idx ∧ (∀ x, x ∈ idx ↔ x ∈ [7; 2; 7]%Z) ∧
    F64.average_over_structures [7; 2; 7]%Z F64.tenths
      = Ok (F64.Array2 (F64.shape1 F64.tenths)
              ((λ st, F64.onto_zeros (F64.shape1 F64.tenths)
                        (F64.np_mean0 (F64.rows_of [7; 2; 7]%Z F64.tenths st)))
                 <$> idx)) ∧
    F64.sum_over_structures [7; 2; 7]%Z F64.tenths
      = Ok (F64.Array2 (F64.shape1 F64.tenths)
              ((λ st, F64.onto_zeros (F64.shape1 F64.tenths)
                        (F64.np_sum0 (F64.rows_of [7; 2; 7]%Z F64.tenths st)))
                 <$> idx)) ∧
    ∀ s' v',
      length s' = F64.shape0 v' → F64.shape1 v' = F64.shape1 F64.tenths →
      zip s' (F64.data v') ≡ₚ zip [7; 2; 7]%Z (F64.data F64.tenths) →
      F64.average_over_structures s' v'
        = Ok (F64.Array2 (F64.shape1 F64.tenths)
                ((λ st, F64.onto_zeros (F64.shape1 F64.tenths)
                          (F64.np_mean0 (F64.rows_of s' v' st))) <$> idx)) ∧
      F64.sum_over_structures s' v'
        = Ok (F64.Array2 (F64.shape1 F64.tenths)
                ((λ st, F64.onto_zeros (F64.shape1 F64.tenths)
                          (F64.np_sum0 (F64.rows_of s' v' st))) <$> idx)) ∧
      (∀ st, F64.data (F64.rows_of s' v' st)
               ≡ₚ F64.data (F64.rows_of [7; 2; 7]%Z F64.tenths st)) ∧
      ((∀ st, st ∈ idx →
              F64.rows_of s' v' st = F64.rows_of [7; 2; 7]%Z F64.tenths st) →
       F64.average_over_structures s' v'
         = F64.average_over_structures [7; 2; 7]%Z F64.tenths ∧
       F64.sum_over_structures s' v'
         = F64.sum_over_structures [7; 2; 7]%Z F64.tenths).
Proof.
  apply (C3_ascending_and_order_within_groups [7; 2; 7]%Z F64.tenths).
  reflexivity.
Defined.

(** C4: when every structure index has exactly one row, each helper
    returns the rows of the input, reordered by ascending structure index;
    applied again to its own output (with the ascending indices) it
    returns that output unchanged; the mean and the sum of a single row
    are that row. *)
Theorem C4_one_row_per_index (s : list Z) (v : array2) :
  length s = shape0 v → NoDup s → rectangular v →
  ∃ idx : list Z,
    StronglySorted Z.lt idx ∧
    (∃ out, call average_over_structures s v = Ok out ∧
            shape1 out = shape1 v ∧ length idx = shape0 out ∧
            zip idx (data out) ≡ₚ zip s (data v) ∧
            call average_over_structures idx out = Ok out) ∧
    (∃ out, call sum_over_structures s v = Ok out ∧
            shape1 out = shape1 v ∧ length idx = shape0 out ∧
            zip idx (data out) ≡ₚ zip s (data v) ∧
            call sum_over_structures idx out = Ok out) ∧
    (∀ r, r ∈ data v →
          np_mean0 (Array2 (shape1 v) [r]) = r ∧
          np_sum0 (Array2 (shape1 v) [r]) = r).
Proof.
  intros Hlen Hnd Hrect. exists (np_unique s).
  rewrite average_over_structures_eq, sum_over_structures_eq.
  rewrite !call_ok by (done || apply np_mean0_axis0 || apply np_sum0_axis0).
  split_and!.
  - apply np_unique_sorted.
  - exists (aggregate np_mean0 s v).
    assert (length (np_unique s) = shape0 (aggregate np_mean0 s v)) as Hl
      by (unfold shape0, aggregate; cbn [data]; by rewrite length_fmap).
    split_and!; try done.
    + apply aggregate_one_row_per_index; auto using np_mean0_keeps_single_row.
    + rewrite call_ok by (done || apply np_mean0_axis0). f_equal.
      apply aggregate_idempotent;
        auto using np_mean0_axis0, np_mean0_keeps_single_row.
  - exists (aggregate np_sum0 s v).
    assert (length (np_unique s) = shape0 (aggregate np_sum0 s v)) as Hl
      by (unfold shape0, aggregate; cbn [data]; by rewrite length_fmap).
    split_and!; try done.
    + apply aggregate_one_row_per_index; auto using np_sum0_keeps_single_row.
    + rewrite call_ok by (done || apply np_sum0_axis0). f_equal.
      apply aggregate_idempotent;
        auto using np_sum0_axis0, np_sum0_keeps_single_row.
  - intros r Hr.
    assert (length r = shape1 v) as Hr'
      by (by apply (proj1 (Forall_forall _ _) Hrect)).
    split; [by apply np_mean0_single | by apply np_sum0_single].
Qed.

Lemma C4_one_row_per_index_witness :
  ∃ idx : list Z,
    StronglySorted Z.lt idx ∧
    (∃ out, call average_over_structures [7; 2; 5]%Z example_values = Ok out ∧
            shape1 out = 2 ∧ length idx = shape0 out ∧
            zip idx (data out) ≡ₚ zip [7; 2; 5]%Z (data example_values) ∧
            call average_over_structures idx out = Ok out) ∧
    (∃ out, call sum_over_structures [7; 2; 5]%Z example_values = Ok out ∧
            shape1 out = 2 ∧ length idx = shape0 out ∧
            zip idx (data out) ≡ₚ zip [7; 2; 5]%Z (data example_values) ∧
            call sum_over_structures idx out = Ok out) ∧
    (∀ r, r ∈ data example_values →
          np_mean0 (Array2 2 [r]) = r ∧ np_sum0 (Array2 2 [r]) = r).
Proof.
  apply (C4_one_row_per_index [7; 2; 5]%Z example_values).
  - reflexivity.
  - compute_done.
  - repeat constructor.
Defined.

(** C5 as stated fails: with an empty index mapping and a feature array of
    one row the row counts differ, and yet neither helper raises. *)
Lemma C5_counterexample :
  length ([] : list Z) ≠ shape0 (Array2 1 [[Qc_of_Z 1]]) ∧
  ¬ (∃ e, call average_over_structures [] (Array2 1 [[Qc_of_Z 1]]) = Raise e) ∧
  ¬ (∃ e, call sum_over_structures [] (Array2 1 [[Qc_of_Z 1]]) = Raise e).
Proof. split_and!; [done | by intros [e He] ..]. Qed.

(** C5, amended: when the row counts differ and the index mapping is not
    empty, each helper raises the IndexError of the boolean-mask indexing,
    which carries the two row counts; when the index mapping is empty,
    each helper returns an array of zero rows. *)
Theorem C5_mismatched_lengths (s : list Z) (v : array2) :
  length s ≠ shape0 v →
  (s ≠ [] →
     call average_over_structures s v
       = Raise (IndexError_boolean (shape0 v) (length s)) ∧
     call sum_over_structures s v
       = Raise (IndexError_boolean (shape0 v) (length s))) ∧
  (s = [] →
     call average_over_structures s v = Ok (Array2 (shape1 v) []) ∧
     call sum_over_structures s v = Ok (Array2 (shape1 v) [])).
Proof.
  intros Hlen.
  rewrite average_over_structures_eq, sum_over_structures_eq.
  split.
  - intros Hne. by rewrite !call_raise.
  - intros ->. by rewrite !call_nil.
Qed.

Lemma C5_mismatched_lengths_witness :
  call average_over_structures [4; 4]%Z example_values
    = Raise (IndexError_boolean 3 2) ∧
  call sum_over_structures [4; 4]%Z example_values
    = Raise (IndexError_boolean 3 2).
Proof.
  apply (C5_mismatched_lengths [4; 4]%Z example_values); [vm_compute; lia | done].
Defined.

(** C6 as stated fails over float64: for the three rows 0.1, 0.1, 1.4 of
    one structure the mean-mode row multiplied by the count 3 is not the
    sum-mode row. *)
Lemma C6_counterexample :
  length [0; 0; 0]%Z = F64.shape0 F64.tenths ∧
  count_of [0; 0; 0]%Z 0 = 3 ∧
  ∃ oa os,
    F64.average_over_structures [0; 0; 0]%Z F64.tenths = Ok oa ∧
    F64.sum_over_structures [0; 0; 0]%Z F64.tenths = Ok os ∧
    F64.array_equal (F64.scaled (F64.of_nat 3) oa) os = false.
Proof.
  split_and!; try reflexivity.
  do 2 eexists. split_and!; reflexivity.
Qed.

(** C6, amended: on equal row counts the two helpers emit their rows for
    the same ascending list of distinct indices, and for each index both
    rows come from one sum, the float64 column sums of the rows that carry
    the index: the sum-mode row is what [+=] leaves of that sum, the
    mean-mode row what it leaves of that sum divided by the number of
    those rows, which is at least one. *)
Theorem C6_same_grouping_same_sum (s : list Z) (v : F64.array2) :
  length s = F64.shape0 v →
  ∃ (idx : list Z) (oa os : F64.array2),
    StronglySorted Z.lt idx ∧ (∀ x, x ∈ idx ↔ x ∈ s) ∧
    F64.average_over_structures s v = Ok oa ∧
    F64.sum_over_structures s v = Ok os ∧
    F64.shape0 oa = length idx ∧ F64.shape0 os = length idx ∧
    ∀ i st, idx !! i = Some st →
      F64.shape0 (F64.rows_of s v st) = count_of s st ∧
      0 < count_of s st ∧
      F64.data os !! i
        = Some (F64.onto_zeros (F64.shape1 v)
                  (F64.np_sum0 (F64.rows_of s v st))) ∧
      F64.data oa !! i
        = Some (F64.onto_zeros (F64.shape1 v)
                  ((λ x, PrimFloat.div x (F64.of_nat (count_of s st)))
                     <$> F64.np_sum0 (F64.rows_of s v st))).
Proof.
  intros Hlen. exists (np_unique s).
  rewrite f64_average_over_structures_eq, f64_sum_over_structures_eq.
  rewrite !f64_call_ok by (done || apply f64_np_mean0_length
                           || apply f64_np_sum0_length).
  do 2 eexists.
  split_and!; [apply np_unique_sorted | apply elem_of_np_unique | done..| | |].
  - unfold F64.shape0. cbn [F64.data]. by rewrite length_fmap.
  - unfold F64.shape0. cbn [F64.data]. by rewrite length_fmap.
  - intros i st Hi. cbn [F64.data]. rewrite !list_lookup_fmap, Hi.
    split_and!; [by apply f64_shape0_rows_of | | done |].
    + apply count_of_pos. rewrite <- elem_of_np_unique.
      by eapply list_elem_of_lookup_2.
    + cbn [fmap option_fmap option_map]. unfold F64.np_mean0.
      by rewrite f64_shape0_rows_of.
Qed.

Lemma C6_same_grouping_same_sum_witness :
  ∃ (idx : list Z) (oa os : F64.array2),
    StronglySorted Z.lt idx ∧ (∀ x, x ∈ idx ↔ x ∈ [7; 2; 7]%Z) ∧
    F64.average_over_structures [7; 2; 7]%Z F64.tenths = Ok oa ∧
    F64.sum_over_structures [7; 2; 7]%Z F64.tenths = Ok os ∧
    F64.shape0 oa = length idx ∧ F64.shape0 os = length idx ∧
    ∀ i st, idx !! i = Some st →
      F64.shape0 (F64.rows_of [7; 2; 7]%Z F64.tenths st)
        = count_of [7; 2; 7]%Z st ∧
      0 < count_of [7; 2; 7]%Z st ∧
      F64.data os !! i
        = Some (F64.onto_zeros (F64.shape1 F64.tenths)
                  (F64.np_sum0 (F64.rows_of [7; 2; 7]%Z F64.tenths st))) ∧
      F64.data oa !! i
        = Some (F64.onto_zeros (F64.shape1 F64.tenths)
                  ((λ x, PrimFloat.div x
                           (F64.of_nat (count_of [7; 2; 7]%Z st)))
                     <$> F64.np_sum0 (F64.rows_of [7; 2; 7]%Z F64.tenths st))).
Proof.
  apply (C6_same_grouping_same_sum [7; 2; 7]%Z F64.tenths). reflexivity.
Defined.

(** C7: a call changes no object that was in the store before it, so it
    leaves the index mapping and the feature array as they were; when it
    returns, the only new object is the array it returns, at a location
    that was free before the call. *)
Theorem C7_no_side_effects (d : descriptor) (h : heap) :
  (∃ new : heap,
     (average_over_structures d h).2 = h ++ new ∧
     (∀ l o, h !! l = Some o → (average_over_structures d h).2 !! l = Some o) ∧
     (∀ l, (average_over_structures d h).1 = Ok l →
           h !! l = None ∧ ∃ out, new = [FloatArray2 out] ∧
           (average_over_structures d h).2 !! l = Some (FloatArray2 out))) ∧
  (∃ new : heap,
     (sum_over_structures d h).2 = h ++ new ∧
     (∀ l o, h !! l = Some o → (sum_over_structures d h).2 !! l = Some o) ∧
     (∀ l, (sum_over_structures d h).1 = Ok l →
           h !! l = None ∧ ∃ out, new = [FloatArray2 out] ∧
           (sum_over_structures d h).2 !! l = Some (FloatArray2 out))).
Proof.
  rewrite average_over_structures_eq, sum_over_structures_eq.
  split.
  - destruct (over_structures_frame np_mean0 np_mean0_axis0 d h)
      as (new & Hh & Hret).
    exists new. rewrite Hh. split_and!; [done| |].
    + intros l o Hl. by apply lookup_app_l_Some.
    + intros l Hl. destruct (Hret l Hl) as (-> & out & ->).
      split; [by apply lookup_ge_None|].
      exists out. split; [done|]. by rewrite list_lookup_middle.
  - destruct (over_structures_frame np_sum0 np_sum0_axis0 d h)
      as (new & Hh & Hret).
    exists new. rewrite Hh. split_and!; [done| |].
    + intros l o Hl. by apply lookup_app_l_Some.
    + intros l Hl. destruct (Hret l Hl) as (-> & out & ->).
      split; [by apply lookup_ge_None|].
      exists out. split; [done|]. by rewrite list_lookup_middle.
Qed.

(** C8: an index for which a row is emitted (an element of
    [np.unique(samples)]) is carried by some input row, so on equal row
    counts the group selected by its mask has at least one row; and what
    the mean does on zero rows never shows in a call: replacing the mean
    by any reduction that agrees with it on arrays of at least one row
    gives the same outcome and the same store. *)
Theorem C8_no_empty_group (s : list Z) (v : array2) (st : Z)
    (mean' : array2 → list Qc) (d : descriptor) (h : heap) :
  st ∈ np_unique s →
  (∀ a, data a ≠ [] → mean' a = np_mean0 a) →
  (∃ j, s !! j = Some st) ∧
  (length s = shape0 v →
     data (group_of s v st) ≠ [] ∧ 0 < shape0 (rows_of s v st)) ∧
  over_structures mean' d h = average_over_structures d h.
Proof.
  intros Hst Hagree. split_and!.
  - by apply list_elem_of_lookup, elem_of_np_unique.
  - intros Hlen. split; [by apply group_nonempty|].
    rewrite shape0_rows_of by done. by apply count_of_pos, elem_of_np_unique.
  - rewrite average_over_structures_eq.
    apply over_structures_ext; [apply np_mean0_axis0 | done].
Qed.

Lemma C8_no_empty_group_witness :
  (∃ j, [7; 2; 7]%Z !! j = Some 2%Z) ∧
  (length [7; 2; 7]%Z = shape0 example_values →
     data (group_of [7; 2; 7]%Z example_values 2) ≠ [] ∧
     0 < shape0 (rows_of [7; 2; 7]%Z example_values 2)) ∧
  over_structures mean_or_marker (Descriptor 0 1)
    [IntArray [7; 2; 7]%Z; FloatArray2 example_values]
  = average_over_structures (Descriptor 0 1)
    [IntArray [7; 2; 7]%Z; FloatArray2 example_values].
Proof.
  apply (C8_no_empty_group [7; 2; 7]%Z example_values 2%Z mean_or_marker).
  - compute_done.
  - intros a Ha. unfold mean_or_marker. by destruct (data a).
Defined.



(** C10: on an empty input (no index, a feature array of zero rows and
    [c] columns) both helpers return an array of zero rows and [c]
    columns. *)
Theorem C10_empty_input (c : nat) :
  call average_over_structures [] (Array2 c []) = Ok (Array2 c []) ∧
  call sum_over_structures [] (Array2 c []) = Ok (Array2 c []).
Proof.
  rewrite average_over_structures_eq, sum_over_structures_eq.
  by rewrite !call_nil.
Qed.

(** * Further properties of the notebook's code *)

(** ** Cell 3: the energies of the frames *)

Lemma info_column_Found key frames xs :
  info_column key frames = Found xs →
  Forall2 (λ f x, info f !! key = Some x) frames xs.
Proof.
  revert xs. induction frames as [|f frames IH]; intros xs; simpl.
  - intros [= <-]. constructor.
  - destruct (info f !! key) as [x|] eqn:Ef; [|done].
    destruct (info_column key frames) as [ys|k]; [|done].
    intros [= <-]. constructor; auto.
Qed.

Lemma info_column_KeyError key frames k :
  info_column key frames = KeyError k →
  k = key ∧ Exists (λ f, info f !! key = None) frames.
Proof.
  induction frames as [|f frames IH]; simpl; [done|].
  destruct (info f !! key) as [x|] eqn:Ef.
  - destruct (info_column key frames) as [ys|k']; [done|].
    intros [= <-]. destruct IH as [-> Hex]; [done|]. split; [done|].
    by apply Exists_cons_tl.
  - intros [= <-]. split; [done|]. by apply Exists_cons_hd.
Qed.

(** X1: the energies of cell 3 are either a column with one row per frame,
    row [i] holding the energy recorded in frame [i], or a KeyError for
    the key "atomization_energy", and then some frame lacks the key. *)
Theorem atomization_energies_outcome (frames : list frame) :
  (∃ a, atomization_energies frames = Found a ∧
        shape0 a = length frames ∧ shape1 a = 1 ∧
        ∀ i f, frames !! i = Some f →
          ∃ e, info f !! "atomization_energy" = Some e ∧
               data a !! i = Some [e]) ∨
  (atomization_energies frames = KeyError "atomization_energy" ∧
   Exists (λ f, info f !! "atomization_energy" = None) frames).
Proof.
  unfold atomization_energies.
  destruct (info_column "atomization_energy" frames) as [xs|k] eqn:E.
  - left. apply info_column_Found in E. eexists. split; [done|].
    unfold shape0, reshape_column. cbn [data shape1].
    rewrite length_fmap. split_and!; [by rewrite (Forall2_length _ _ _ E)|done|].
    intros i f Hf.
    destruct (Forall2_lookup_l _ _ _ _ _ E Hf) as (e & Hx & He).
    exists e. split; [done|]. by rewrite list_lookup_fmap, Hx.
  - right. apply info_column_KeyError in E as [-> Hex]. done.
Qed.

(** ** Cell 8: the first row *)

Lemma np_unique_head_least s st rest :
  np_unique s = st :: rest → st ∈ s ∧ ∀ x, x ∈ s → (st ≤ x)%Z.
Proof.
  intros E. split.
  - apply elem_of_np_unique. rewrite E. left.
  - intros x Hx. apply elem_of_np_unique in Hx.
    pose proof (np_unique_sorted s) as Hs. rewrite E in Hs, Hx.
    apply StronglySorted_cons in Hs as [Hlt _].
    apply elem_of_cons in Hx as [->|Hx]; [lia|].
    apply (proj1 (Forall_forall _ _) Hlt) in Hx. lia.
Qed.

(** X3: on equal row counts, what cell 8 prints after the mean-mode call
    is the shape (number of distinct indices, column count) and the mean
    of the rows that carry the least structure index; when the index
    mapping is empty, [per_structure_soap[0]] raises an IndexError. *)
Theorem cell_print_first_row (s : list Z) (v : array2) :
  length s = shape0 v →
  ∃ out, call average_over_structures s v = Ok out ∧
    (s = [] → cell_print out = Raise (IndexError_bounds 0 0)) ∧
    (s ≠ [] → ∃ st, st ∈ s ∧ (∀ x, x ∈ s → (st ≤ x)%Z) ∧
       cell_print out
       = Ok (length (remove_dups s), shape1 v, np_mean0 (rows_of s v st))).
Proof.
  intros Hlen. rewrite average_over_structures_eq.
  rewrite call_ok by (done || apply np_mean0_axis0).
  eexists. split; [done|]. split.
  - intros ->. reflexivity.
  - intros Hne. apply np_unique_nonempty in Hne.
    destruct (np_unique s) as [|st rest] eqn:E; [done|].
    exists st. destruct (np_unique_head_least s st rest E) as [Hin Hle].
    split_and!; [done..|].
    destruct (aggregate_shape np_mean0 np_mean0_axis0 s v) as (Hrows & Hcols & _).
    unfold cell_print, getitem_row. rewrite Hrows, Hcols.
    rewrite aggregate_rows_of, E. reflexivity.
Qed.

Lemma cell_print_first_row_witness :
  ∃ out, call average_over_structures [7; 2; 7]%Z example_values = Ok out ∧
    ([7; 2; 7]%Z = [] → cell_print out = Raise (IndexError_bounds 0 0)) ∧
    ([7; 2; 7]%Z ≠ [] → ∃ st, st ∈ [7; 2; 7]%Z ∧
       (∀ x, x ∈ [7; 2; 7]%Z → (st ≤ x)%Z) ∧
       cell_print out
       = Ok (length (remove_dups [7; 2; 7]%Z), shape1 example_values,
             np_mean0 (rows_of [7; 2; 7]%Z example_values st))).
Proof. apply (cell_print_first_row [7; 2; 7]%Z example_values). reflexivity. Defined.

(** ** Renaming the structure indices *)

Lemma np_unique_fmap (f : Z → Z) (s : list Z) :
  (∀ x y, (x < y)%Z → (f x < f y)%Z) →
  np_unique (f <$> s) = f <$> np_unique s.
Proof.
  intros Hmono. apply ascending_unique.
  - apply np_unique_sorted.
  - apply (StronglySorted_fmap _ Z.lt Z.lt); [done|apply np_unique_sorted].
  - intros x. rewrite elem_of_np_unique, !list_elem_of_fmap.
    by setoid_rewrite elem_of_np_unique.
Qed.

Lemma increasing_inj (f : Z → Z) :
  (∀ x y, (x < y)%Z → (f x < f y)%Z) → ∀ x y, f x = f y → x = y.
Proof.
  intros Hmono x y E.
  destruct (Z.lt_trichotomy x y) as [H|[H|H]]; [|done|];
    apply Hmono in H; lia.
Qed.

Lemma eq_scalar_fmap (f : Z → Z) (s : list Z) st :
  (∀ x y, f x = f y → x = y) →
  eq_scalar (f <$> s) (f st) = eq_scalar s st.
Proof.
  intros Hinj. unfold eq_scalar. rewrite <- list_fmap_compose.
  apply list_fmap_ext. intros _ x _. cbn.
  apply bool_decide_ext. split; [apply Hinj|by intros ->].
Qed.

Lemma call_relabel reduce (Hred : axis0_reduction reduce)
    (f : Z → Z) (s : list Z) (v : array2) :
  (∀ x y, (x < y)%Z → (f x < f y)%Z) →
  call (over_structures reduce) (f <$> s) v = call (over_structures reduce) s v.
Proof.
  intros Hmono.
  destruct (decide (length s = shape0 v)) as [Hlen|Hlen].
  - rewrite !call_ok by (done || by rewrite length_fmap). f_equal.
    unfold aggregate, group_of. rewrite np_unique_fmap by done. f_equal.
    rewrite <- list_fmap_compose. apply list_fmap_ext. intros _ st _. cbn.
    by rewrite eq_scalar_fmap by (by apply increasing_inj).
  - destruct s as [|x s]; [done|].
    rewrite !call_raise by (done || by rewrite length_fmap).
    by rewrite length_fmap.
Qed.

(** X6: only the relative order of the structure indices matters. Renaming
    the indices by any strictly increasing function changes neither the
    returned array nor the error of either helper. *)
Theorem helpers_ignore_increasing_renaming
    (f : Z → Z) (s : list Z) (v : array2) :
  (∀ x y, (x < y)%Z → (f x < f y)%Z) →
  call average_over_structures (f <$> s) v = call average_over_structures s v ∧
  call sum_over_structures (f <$> s) v = call sum_over_structures s v.
Proof.
  intros Hmono. rewrite average_over_structures_eq, sum_over_structures_eq.
  split; apply call_relabel; auto using np_mean0_axis0, np_sum0_axis0.
Qed.

Lemma helpers_ignore_increasing_renaming_witness :
  call average_over_structures ((λ x, 2 * x + 100)%Z <$> [7; 2; 7]%Z)
    example_values
  = call average_over_structures [7; 2; 7]%Z example_values ∧
  call sum_over_structures ((λ x, 2 * x + 100)%Z <$> [7; 2; 7]%Z)
    example_values
  = call sum_over_structures [7; 2; 7]%Z example_values.
Proof.
  apply (helpers_ignore_increasing_renaming (λ x, 2 * x + 100)%Z
           [7; 2; 7]%Z example_values).
  intros x y Hxy. lia.
Defined.

(** ** Two batches of structures *)

Lemma select_app {A} (m1 m2 : list bool) (x1 x2 : list A) :
  length m1 = length x1 →
  select (m1 ++ m2) (x1 ++ x2) = select m1 x1 ++ select m2 x2.
Proof.
  revert x1. induction m1 as [|b m1 IH]; intros [|x x1] Hlen; try done.
  cbn [app select]. rewrite IH by (simpl in Hlen; lia). by destruct b.
Qed.

Lemma select_absent {A} (s : list Z) (rows : list A) st :
  st ∉ s → select (eq_scalar s st) rows = [].
Proof.
  revert rows. induction s as [|a s IH]; intros [|r rows] Hst; try done.
  apply not_elem_of_cons in Hst as [Hne Hst].
  cbn [eq_scalar fmap list_fmap select]. fold (eq_scalar s st).
  rewrite bool_decide_eq_false_2 by done. by apply IH.
Qed.

Lemma np_unique_app (s1 s2 : list Z) :
  (∀ x y, x ∈ s1 → y ∈ s2 → (x < y)%Z) →
  np_unique (s1 ++ s2) = np_unique s1 ++ np_unique s2.
Proof.
  intros Hlt. apply ascending_unique.
  - apply np_unique_sorted.
  - apply StronglySorted_app_2; auto using np_unique_sorted.
    intros x y Hx Hy. rewrite elem_of_np_unique in Hx, Hy. by apply Hlt.
  - intros x. by rewrite elem_of_app, !elem_of_np_unique, elem_of_app.
Qed.

Lemma eq_scalar_app s1 s2 st :
  eq_scalar (s1 ++ s2) st = eq_scalar s1 st ++ eq_scalar s2 st.
Proof. unfold eq_scalar. by rewrite fmap_app. Qed.

Lemma aggregate_app reduce (s1 s2 : list Z) (v1 v2 : array2) :
  (∀ x y, x ∈ s1 → y ∈ s2 → (x < y)%Z) →
  length s1 = shape0 v1 → shape1 v2 = shape1 v1 →
  aggregate reduce (s1 ++ s2) (Array2 (shape1 v1) (data v1 ++ data v2))
  = Array2 (shape1 v1)
      (data (aggregate reduce s1 v1) ++ data (aggregate reduce s2 v2)).
Proof.
  intros Hlt Hlen Hcols. unfold aggregate, group_of. cbn [shape1 data].
  rewrite np_unique_app, fmap_app by done. do 2 f_equal.
  - apply list_fmap_ext. intros i st Hst. cbn.
    apply list_elem_of_lookup_2 in Hst. rewrite elem_of_np_unique in Hst.
    rewrite eq_scalar_app, select_app by (by rewrite length_eq_scalar).
    rewrite (select_absent s2), app_nil_r; [done|].
    intros Hst2. specialize (Hlt st st Hst Hst2). lia.
  - rewrite Hcols. apply list_fmap_ext. intros i st Hst. cbn.
    apply list_elem_of_lookup_2 in Hst. rewrite elem_of_np_unique in Hst.
    rewrite eq_scalar_app, select_app by (by rewrite length_eq_scalar).
    rewrite (select_absent s1); [done|].
    intros Hst1. specialize (Hlt st st Hst1 Hst). lia.
Qed.

(** X7: two batches can be aggregated apart. When every structure index of
    the first batch is below every index of the second and each batch has
    equal row counts, a helper called on the two batches put end to end
    returns the rows it returns for the first batch followed by the rows
    it returns for the second. *)
Theorem helpers_on_batches (s1 s2 : list Z) (v1 v2 : array2) :
  (∀ x y, x ∈ s1 → y ∈ s2 → (x < y)%Z) →
  length s1 = shape0 v1 → length s2 = shape0 v2 → shape1 v2 = shape1 v1 →
  (∃ o1 o2,
     call average_over_structures s1 v1 = Ok o1 ∧
     call average_over_structures s2 v2 = Ok o2 ∧
     call average_over_structures (s1 ++ s2)
       (Array2 (shape1 v1) (data v1 ++ data v2))
     = Ok (Array2 (shape1 v1) (data o1 ++ data o2))) ∧
  (∃ o1 o2,
     call sum_over_structures s1 v1 = Ok o1 ∧
     call sum_over_structures s2 v2 = Ok o2 ∧
     call sum_over_structures (s1 ++ s2)
       (Array2 (shape1 v1) (data v1 ++ data v2))
     = Ok (Array2 (shape1 v1) (data o1 ++ data o2))).
Proof.
  intros Hlt Hlen1 Hlen2 Hcols.
  assert (length (s1 ++ s2)
          = shape0 (Array2 (shape1 v1) (data v1 ++ data v2))) as Hlen.
  { unfold shape0 in *. cbn [data]. rewrite !length_app. lia. }
  rewrite average_over_structures_eq, sum_over_structures_eq.
  rewrite !call_ok by (done || apply np_mean0_axis0 || apply np_sum0_axis0).
  split; do 2 eexists; (split_and!; [done..|]); f_equal;
    by apply aggregate_app.
Qed.

Lemma helpers_on_batches_witness :
  (∃ o1 o2,
     call average_over_structures [1; 0; 1]%Z example_values = Ok o1 ∧
     call average_over_structures [5; 5; 3]%Z example_values = Ok o2 ∧
     call average_over_structures ([1; 0; 1] ++ [5; 5; 3])%Z
       (Array2 (shape1 example_values)
          (data example_values ++ data example_values))
     = Ok (Array2 (shape1 example_values) (data o1 ++ data o2))) ∧
  (∃ o1 o2,
     call sum_over_structures [1; 0; 1]%Z example_values = Ok o1 ∧
     call sum_over_structures [5; 5; 3]%Z example_values = Ok o2 ∧
     call sum_over_structures ([1; 0; 1] ++ [5; 5; 3])%Z
       (Array2 (shape1 example_values)
          (data example_values ++ data example_values))
     = Ok (Array2 (shape1 example_values) (data o1 ++ data o2))).
Proof.
  apply (helpers_on_batches [1; 0; 1]%Z [5; 5; 3]%Z
           example_values example_values); try reflexivity.
  intros x y Hx Hy.
  assert (x ≤ 1)%Z by (repeat (apply elem_of_cons in Hx as [->|Hx]; [lia|]);
                        by apply elem_of_nil in Hx).
  assert (3 ≤ y)%Z by (repeat (apply elem_of_cons in Hy as [->|Hy]; [lia|]);
                        by apply elem_of_nil in Hy).
  lia.
Defined.

(** ** Rows aligned with the frames *)

Lemma seq_ascending (k n : nat) :
  StronglySorted Z.lt (Z.of_nat <$> seq k n).
Proof.
  revert k. induction n as [|n IH]; intros k; [constructor|].
  cbn [seq]. rewrite fmap_cons. constructor; [apply IH|].
  apply Forall_fmap, Forall_forall. intros x [Hx1 Hx2]%elem_of_seq. cbn. lia.
Qed.

Lemma np_unique_range (s : list Z) (n : nat) :
  (∀ x, x ∈ s ↔ (0 ≤ x < Z.of_nat n)%Z) →
  np_unique s = Z.of_nat <$> seq 0 n.
Proof.
  intros Hs. apply ascending_unique.
  - apply np_unique_sorted.
  - apply seq_ascending.
  - intros x. rewrite elem_of_np_unique, Hs, list_elem_of_fmap. split.
    + intros Hx. exists (Z.to_nat x). split; [lia|]. apply elem_of_seq. lia.
    + intros (i & -> & [Hi1 Hi2]%elem_of_seq). lia.
Qed.

Lemma info_column_all key frames :
  Forall (λ f, is_Some (info f !! key)) frames →
  ∃ xs, info_column key frames = Found xs ∧ length xs = length frames.
Proof.
  induction 1 as [|f frames [x Hx] _ (xs & IH & Hlen)]; [by exists []|].
  exists (x :: xs). cbn. rewrite Hx, IH. by rewrite Hlen.
Qed.

(** X8: when the structure indices are exactly 0, ..., n-1 for the n
    frames (every frame has an atom) and every frame records its energy,
    the output of each helper has one row per frame, as many rows as
    the energies of cell 3, and row [i] is the reduction of the rows of
    structure [i]: features and energies line up row by row. *)
Theorem helpers_align_with_frames
    (frames : list frame) (s : list Z) (v : array2) :
  (∀ x, x ∈ s ↔ (0 ≤ x < Z.of_nat (length frames))%Z) →
  length s = shape0 v →
  Forall (λ f, is_Some (info f !! "atomization_energy")) frames →
  ∃ oa os e,
    call average_over_structures s v = Ok oa ∧
    call sum_over_structures s v = Ok os ∧
    atomization_energies frames = Found e ∧
    shape0 oa = shape0 e ∧ shape0 os = shape0 e ∧
    shape0 e = length frames ∧
    ∀ i, i < length frames →
      data oa !! i = Some (np_mean0 (rows_of s v (Z.of_nat i))) ∧
      data os !! i = Some (np_sum0 (rows_of s v (Z.of_nat i))).
Proof.
  intros Hs Hlen Hinfo.
  destruct (info_column_all "atomization_energy" frames Hinfo) as (xs & Hxs & Hn).
  rewrite average_over_structures_eq, sum_over_structures_eq.
  rewrite !call_ok by (done || apply np_mean0_axis0 || apply np_sum0_axis0).
  unfold atomization_energies. rewrite Hxs.
  do 3 eexists. split_and!; try done.
  - unfold shape0, aggregate, reshape_column. cbn [data].
    by rewrite !length_fmap, (np_unique_range s _ Hs), length_fmap, length_seq.
  - unfold shape0, aggregate, reshape_column. cbn [data].
    by rewrite !length_fmap, (np_unique_range s _ Hs), length_fmap, length_seq.
  - unfold shape0, reshape_column. cbn [data]. by rewrite length_fmap.
  - intros i Hi. rewrite !aggregate_rows_of, (np_unique_range s _ Hs).
    cbn [data]. rewrite !list_lookup_fmap, lookup_seq_lt by done. done.
Qed.

Lemma helpers_align_with_frames_witness :
  ∃ oa os e,
    call average_over_structures [1; 0; 1]%Z example_values = Ok oa ∧
    call sum_over_structures [1; 0; 1]%Z example_values = Ok os ∧
    atomization_energies
      [Frame {[ "atomization_energy" := Qc_of_Z (-417) ]};
       Frame {[ "atomization_energy" := Qc_of_Z (-712) ]}] = Found e ∧
    shape0 oa = shape0 e ∧ shape0 os = shape0 e ∧
    shape0 e = 2 ∧
    ∀ i, i < 2 →
      data oa !! i
        = Some (np_mean0 (rows_of [1; 0; 1]%Z example_values (Z.of_nat i))) ∧
      data os !! i
        = Some (np_sum0 (rows_of [1; 0; 1]%Z example_values (Z.of_nat i))).
Proof.
  apply (helpers_align_with_frames
           [Frame {[ "atomization_energy" := Qc_of_Z (-417) ]};
            Frame {[ "atomization_energy" := Qc_of_Z (-712) ]}]
           [1; 0; 1]%Z example_values).
  - intros x. cbn [length]. rewrite !elem_of_cons, elem_of_nil. lia.
  - reflexivity.
  - repeat constructor; cbn [info]; rewrite lookup_singleton_eq; eauto.
Defined.

(** ** Leaving a structure out *)

Lemma StronglySorted_lt_filter (P : Z → Prop) `{∀ x, Decision (P x)} (l : list Z) :
  StronglySorted Z.lt l → StronglySorted Z.lt (filter P l).
Proof.
  induction 1 as [|a l Hs IH Ha]; [constructor|].
  rewrite filter_cons. case_decide; [|done].
  constructor; [done|]. apply Forall_forall.
  intros x [_ Hx]%list_elem_of_filter.
  by apply (proj1 (Forall_forall _ _) Ha).
Qed.

Lemma np_unique_filter (P : Z → Prop) `{∀ x, Decision (P x)} (s : list Z) :
  np_unique (filter P s) = filter P (np_unique s).
Proof.
  apply ascending_unique.
  - apply np_unique_sorted.
  - apply StronglySorted_lt_filter, np_unique_sorted.
  - intros x.
    by rewrite elem_of_np_unique, !list_elem_of_filter, elem_of_np_unique.
Qed.

Lemma fst_filter_index {A} (st : Z) (l : list (Z * A)) :
  (filter (λ p, p.1 ≠ st) l).*1 = filter (λ x, x ≠ st) (l.*1).
Proof.
  induction l as [|[x r] l IH]; [done|].
  rewrite fmap_cons, !filter_cons. cbn [fst].
  case_decide; [rewrite fmap_cons|]; by rewrite IH.
Qed.

Lemma snd_filter_diag {A} (st : Z) (g : Z → A) (idx : list Z) :
  (filter (λ p, p.1 ≠ st) ((λ x, (x, g x)) <$> idx)).*2
  = g <$> filter (λ x, x ≠ st) idx.
Proof.
  induction idx as [|x idx IH]; [done|].
  rewrite fmap_cons, !filter_cons. cbn [fst].
  case_decide; [rewrite !fmap_cons|]; by rewrite IH.
Qed.

Lemma filter_index_other {A} (l : list (Z * A)) st st' :
  st' ≠ st →
  filter (λ p, p.1 = st') (filter (λ p, p.1 ≠ st) l)
  = filter (λ p, p.1 = st') l.
Proof.
  intros Hne. induction l as [|[x r] l IH]; [done|].
  rewrite !filter_cons. cbn [fst].
  destruct (decide (x = st')) as [->|Hx].
  - rewrite decide_True by done. rewrite filter_cons. cbn [fst].
    rewrite decide_True by done. by rewrite IH.
  - case_decide; [|done]. rewrite filter_cons. cbn [fst].
    by rewrite decide_False.
Qed.

Lemma aggregate_remove reduce (st : Z) (s : list Z) (v : array2) :
  length s = shape0 v →
  aggregate reduce
    ((filter (λ p, p.1 ≠ st) (zip s (data v))).*1)
    (Array2 (shape1 v) ((filter (λ p, p.1 ≠ st) (zip s (data v))).*2))
  = Array2 (shape1 v)
      ((filter (λ p, p.1 ≠ st)
          (zip (np_unique s) (data (aggregate reduce s v)))).*2).
Proof.
  intros Hlen.
  assert (np_unique (filter (λ p, p.1 ≠ st) (zip s (data v))).*1
          = filter (λ x, x ≠ st) (np_unique s)) as Hidx.
  { rewrite fst_filter_index, fst_zip by (unfold shape0 in Hlen; lia).
    apply np_unique_filter. }
  rewrite !aggregate_rows_of. cbn [shape1 data].
  rewrite Hidx, zip_fmap_diag, snd_filter_diag. f_equal.
  apply list_fmap_ext. intros i st' Hst'.
  apply list_elem_of_lookup_2, list_elem_of_filter in Hst' as [Hne _].
  unfold rows_of. cbn [shape1 data]. f_equal.
  rewrite zip_fst_snd. by rewrite filter_index_other.
Qed.

(** X9: leaving the rows of one structure out of the input removes the row
    of that structure from the output and changes no other row. On equal
    row counts, a helper called on the (index, row) pairs whose index is
    not [st] returns the output of the full call without the row of
    [st]. *)
Theorem helpers_without_a_structure (st : Z) (s : list Z) (v : array2) :
  length s = shape0 v →
  let kept := filter (λ p, p.1 ≠ st) (zip s (data v)) in
  ∃ idx oa os,
    StronglySorted Z.lt idx ∧ (∀ x, x ∈ idx ↔ x ∈ s) ∧
    call average_over_structures s v = Ok oa ∧
    call sum_over_structures s v = Ok os ∧
    call average_over_structures (kept.*1) (Array2 (shape1 v) (kept.*2))
      = Ok (Array2 (shape1 v)
              ((filter (λ p, p.1 ≠ st) (zip idx (data oa))).*2)) ∧
    call sum_over_structures (kept.*1) (Array2 (shape1 v) (kept.*2))
      = Ok (Array2 (shape1 v)
              ((filter (λ p, p.1 ≠ st) (zip idx (data os))).*2)).
Proof.
  intros Hlen kept.
  exists (np_unique s), (aggregate np_mean0 s v), (aggregate np_sum0 s v).
  assert (length (kept.*1) = shape0 (Array2 (shape1 v) (kept.*2))) as Hkept
    by (unfold shape0; cbn [data]; by rewrite !length_fmap).
  rewrite average_over_structures_eq, sum_over_structures_eq.
  rewrite !call_ok by (done || apply np_mean0_axis0 || apply np_sum0_axis0).
  split_and!; try done.
  - apply np_unique_sorted.
  - apply elem_of_np_unique.
  - f_equal. by apply aggregate_remove.
  - f_equal. by apply aggregate_remove.
Qed.

Lemma helpers_without_a_structure_witness :
  let kept := filter (λ p, p.1 ≠ 7%Z) (zip [7; 2; 7]%Z (data example_values)) in
  ∃ idx oa os,
    StronglySorted Z.lt idx ∧ (∀ x, x ∈ idx ↔ x ∈ [7; 2; 7]%Z) ∧
    call average_over_structures [7; 2; 7]%Z example_values = Ok oa ∧
    call sum_over_structures [7; 2; 7]%Z example_values = Ok os ∧
    call average_over_structures (kept.*1)
      (Array2 (shape1 example_values) (kept.*2))
      = Ok (Array2 (shape1 example_values)
              ((filter (λ p, p.1 ≠ 7%Z) (zip idx (data oa))).*2)) ∧
    call sum_over_structures (kept.*1)
      (Array2 (shape1 example_values) (kept.*2))
      = Ok (Array2 (shape1 example_values)
              ((filter (λ p, p.1 ≠ 7%Z) (zip idx (data os))).*2)).
Proof.
  apply (helpers_without_a_structure 7%Z [7; 2; 7]%Z example_values).
  reflexivity.
Defined.
